(** * QueueService (packages/ocular/src/services/queue.ts)

    A shallow embedding of the Kafka-backed queue service: the producer
    operations [send] and [sendBatch], the consumer registrations [subscribe]
    and [subscribeBatch], and the two delivery callbacks [eachMessage] and
    [eachBatch] that the registrations hand to the broker client.

    The service talks to three collaborators: the kafkajs client, the logger
    and the caller-supplied handler.  Every call that crosses that boundary is
    recorded, in program order, in a trace of events; what the collaborator
    answers is decided by an environment that sees the trace so far.  A
    JavaScript call can complete in three ways, and the code distinguishes
    them (an [await]ed call, a call whose promise is dropped, a promise with
    a [.catch]), so the model keeps them apart: a synchronous throw, a promise
    that fulfils, a promise that rejects.

    JavaScript lets any value be thrown, and a promise be rejected with any
    value.  The catch blocks of the source read [error.message], which is
    itself a throw when [error] is [null] or [undefined]; the model keeps
    those two values apart from every other one.  Logger methods and [ulid]
    do not throw.

    A promise is identified with the way it settles, and a run is followed
    to its end: what is proved about a run is about a run in which every
    promise that is awaited does settle. *)

From Stdlib Require Import List String Ascii Arith NArith Lia Bool DecimalString.
Import ListNotations.
Open Scope string_scope.
Open Scope list_scope.

(** ** JavaScript completions *)

(** A value on which a property can be read: anything but [null] and
    [undefined].  All the service does with such a value is to splice
    [error.message] into a template literal, so the value is given by the
    text that yields: the message of an [Error], the text [undefined] for a
    value that has no such property. *)
Record JsError := mkError { message : string }.

Inductive Nullish := JsNull | JsUndefined.

(** What a [throw] carries, and what a promise is rejected with. *)
Inductive Thrown :=
| Value (e : JsError)
| NullishValue (n : Nullish).

Coercion Value : JsError >-> Thrown.

(** Completion of a synchronous call that fails with values of [E]. *)
Inductive Result (E A : Type) : Type :=
| Return (a : A)
| Throw (e : E).
Arguments Return {E A} & a.
Arguments Throw {E A} & e.

(** A call into code of the caller or of the broker client: it may throw
    anything. *)
Definition Exc : Type -> Type := Result Thrown.

(** A call to a built-in ([JSON.parse], a property read): what it throws is
    an [Error] object. *)
Definition Builtin : Type -> Type := Result JsError.

(** A promise, identified with the way it settles. *)
Inductive Settled (A : Type) : Type :=
| Fulfilled (a : A)
| Rejected (e : Thrown).
Arguments Fulfilled {A} a.
Arguments Rejected {A} e.

(** Completion of a call to a function that is meant to return a promise:
    the call itself may throw before any promise exists. *)
Inductive Async (A : Type) : Type :=
| SyncThrow (e : Thrown)
| Promise (s : Settled A).
Arguments SyncThrow {A} e.
Arguments Promise {A} s.

(** How a block of code completes: normally, or by a throw. *)
Inductive Completion (A : Type) : Type :=
| Normal (a : A)
| Abrupt (e : Thrown).
Arguments Normal {A} a.
Arguments Abrupt {A} e.

(** ** kafkajs data *)

(** Outgoing message: [{ value: string }]. *)
Record Message := { value : string }.

(** Argument of [producer.send]. *)
Record ProducerRecord := { pr_topic : string; pr_messages : list Message }.

Record TopicMessages := { topic : string; messages : list Message }.

Record ProducerBatch := { topicMessages : list TopicMessages }.

(** Argument of [kafkaClient.consumer]. *)
Record ConsumerConfig := { cfg_groupId : string; sessionTimeout : option N }.

(** Argument of [consumer.subscribe]. *)
Record ConsumerSubscribeTopic := { sub_topic : string; fromBeginning : bool }.

(** Which callback a [consumer.run] configuration carries. *)
Inductive RunCallback := EachMessage | EachBatch.

(** Argument of [consumer.run]; an absent [eachBatchAutoResolve] is [None]. *)
Record ConsumerRunConfig :=
  { eachBatchAutoResolve : option bool; run_callback : RunCallback }.

(** A consumer session object returned by [kafkaClient.consumer]. *)
Definition KafkaConsumer := nat.

(** Incoming message: [value] is a [Buffer] or [null]. *)
Record KafkaMessage := { km_value : option string }.

Record EachMessagePayload :=
  { emp_topic : string; partition : nat; message_ : KafkaMessage }.

Record Batch := { batch_messages : list KafkaMessage }.

(** The [heartbeat] member of the payload is a call into the broker client
    and lives in the environment. *)
Record EachBatchPayload := { batch : Batch }.

(** ** Types of @ocular/types *)

(** Modelled from the spec: [ConsumerContext], declared in @ocular/types, is
    the bundle [{ groupId: string, sessionTimeoutMs: number }]. *)
Record ConsumerContext := { groupId : string; sessionTimeoutMs : N }.

(** Entry handed to [storeConsumers]. *)
Record ConsumerEntry :=
  { topicName_ : string; consumerId : string; consumer_ : KafkaConsumer }.

Definition ActivityId := nat.

(** What [typeof] answers for a value that is not a function. *)
Inductive JsTypeTag :=
| TUndefined | TObject | TBoolean | TNumber | TString | TSymbol | TBigint.

Section Model.

(** [IndexableDocument] is opaque to the service. *)
Variable Document : Type.

(** ** Events *)

Inductive Event : Type :=
| ProducerConnect
| ProducerSend (record : ProducerRecord)
| ProducerSendBatch (b : ProducerBatch)
| ProducerDisconnect
| KafkaClientConsumer (cfg : ConsumerConfig)
| ConsumerConnect (c : KafkaConsumer)
| ConsumerSubscribe (c : KafkaConsumer) (s : ConsumerSubscribeTopic)
| ConsumerRun (c : KafkaConsumer) (cfg : ConsumerRunConfig)
| JsonStringify (doc : Document)
| JsonParse (text : string)
| HandlerCall (docs : list Document) (topic : string)
| HandlerSettled (s : Settled unit)
| Heartbeat
| Ulid
| ConsoleLog (msg : string)
| LoggerError (msg : string)
| LoggerActivity (msg : string)
| LoggerProgress (a : ActivityId) (msg : string)
| LoggerSuccess (a : ActivityId) (msg : string).

Definition History := list Event.

(** The [consumer] argument of [subscribe] and [subscribeBatch]: any
    JavaScript value.  A function is given by what a call to it does, which
    may depend on everything that happened before. *)
Inductive Consumer : Type :=
| NotFunction (t : JsTypeTag)
| Function (f : History -> list Document -> string -> Async unit).

Definition is_function (c : Consumer) : bool :=
  match c with
  | Function _ => true
  | NotFunction _ => false
  end.

(** ** Environment *)

Record Env := {
  JSON_stringify : Document -> Exc string;
  JSON_parse : string -> Builtin Document;
  producer_connect : History -> Async unit;
  producer_send : History -> ProducerRecord -> Async unit;
  producer_sendBatch : History -> ProducerBatch -> Async unit;
  producer_disconnect : History -> Async unit;
  kafkaClient_consumer : History -> ConsumerConfig -> Exc KafkaConsumer;
  consumer_connect : History -> KafkaConsumer -> Async unit;
  consumer_subscribe :
    History -> KafkaConsumer -> ConsumerSubscribeTopic -> Async unit;
  consumer_run : History -> KafkaConsumer -> ConsumerRunConfig -> Async unit;
  heartbeat : History -> Async unit;
  logger_activity : History -> string -> ActivityId;
  ulid : History -> string
}.

(** ** State and the service monad *)

Record World := { trace : History; consumers : list ConsumerEntry }.

(** The world after the events [delta] have happened. *)
Definition extend (w : World) (delta : list Event) : World :=
  {| trace := trace w ++ delta; consumers := consumers w |}.

Definition record_event (ev : Event) (w : World) : World := extend w [ev].

Definition M (A : Type) : Type := World -> Completion A * World.

Definition ret {A} (a : A) : M A := fun w => (Normal a, w).

Definition bind {A B} (m : M A) (k : A -> M B) : M B :=
  fun w =>
    match m w with
    | (Normal a, w') => k a w'
    | (Abrupt e, w') => (Abrupt e, w')
    end.

Definition throw {A} (e : Thrown) : M A := fun w => (Abrupt e, w).

(** [try { body } catch (error) { handler }] *)
Definition try_catch {A} (body : M A) (handler : Thrown -> M A) : M A :=
  fun w =>
    match body w with
    | (Normal a, w') => (Normal a, w')
    | (Abrupt e, w') => handler e w'
    end.

Definition emit (ev : Event) : M unit :=
  fun w => (Normal tt, record_event ev w).

(** A synchronous call to a collaborator. *)
Definition call_sync {A} (ev : Event) (f : History -> Exc A) : M A :=
  fun w =>
    match f (trace w) with
    | Return a => (Normal a, record_event ev w)
    | Throw e => (Abrupt e, record_event ev w)
    end.

(** A call to a built-in. *)
Definition call_builtin {A} (ev : Event) (f : History -> Builtin A) : M A :=
  fun w =>
    match f (trace w) with
    | Return a => (Normal a, record_event ev w)
    | Throw e => (Abrupt e, record_event ev w)
    end.

(** A call to a collaborator that answers with a promise.  The caller gets
    the promise; whether it looks at it is the caller's business. *)
Definition call_async {A} (ev : Event) (f : History -> Async A)
  : M (Settled A) :=
  fun w =>
    match f (trace w) with
    | Promise s => (Normal s, record_event ev w)
    | SyncThrow e => (Abrupt e, record_event ev w)
    end.

(** [await p] *)
Definition await {A} (p : Settled A) : M A :=
  match p with
  | Fulfilled a => ret a
  | Rejected e => throw e
  end.

End Model.

Arguments ProducerConnect {Document}.
Arguments ProducerSend {Document} record.
Arguments ProducerSendBatch {Document} b.
Arguments ProducerDisconnect {Document}.
Arguments KafkaClientConsumer {Document} cfg.
Arguments ConsumerConnect {Document} c.
Arguments ConsumerSubscribe {Document} c s.
Arguments ConsumerRun {Document} c cfg.
Arguments JsonStringify {Document} doc.
Arguments JsonParse {Document} text.
Arguments HandlerCall {Document} docs topic.
Arguments HandlerSettled {Document} s.
Arguments Heartbeat {Document}.
Arguments Ulid {Document}.
Arguments ConsoleLog {Document} msg.
Arguments LoggerError {Document} msg.
Arguments LoggerActivity {Document} msg.
Arguments LoggerProgress {Document} a msg.
Arguments LoggerSuccess {Document} a msg.
Arguments NotFunction {Document} t.
Arguments Function {Document} f.
Arguments is_function {Document} c.
Arguments JSON_stringify {Document} e.
Arguments JSON_parse {Document} e.
Arguments producer_connect {Document} e.
Arguments producer_send {Document} e.
Arguments producer_sendBatch {Document} e.
Arguments producer_disconnect {Document} e.
Arguments kafkaClient_consumer {Document} e.
Arguments consumer_connect {Document} e.
Arguments consumer_subscribe {Document} e.
Arguments consumer_run {Document} e.
Arguments heartbeat {Document} e.
Arguments logger_activity {Document} e.
Arguments ulid {Document} e.
Arguments trace {Document} w.
Arguments consumers {Document} w.
Arguments Build_World {Document} trace consumers.
Arguments extend {Document} w delta.
Arguments record_event {Document} ev w.
Arguments ret {Document A} a w.
Arguments bind {Document A B} m k w.
Arguments throw {Document A} e w.
Arguments try_catch {Document A} body handler w.
Arguments emit {Document} ev w.
Arguments call_sync {Document A} ev f w.
Arguments call_builtin {Document A} ev f w.
Arguments call_async {Document A} ev f w.
Arguments await {Document A} p.

Declare Scope js_scope.
Delimit Scope js_scope with js.
Notation "x <- m ;; k" := (bind m (fun x => k))
  (at level 61, m at next level, right associativity) : js_scope.
Notation "m ;; k" := (bind m (fun _ => k))
  (at level 61, right associativity) : js_scope.
Open Scope js_scope.

(** ** The service *)

Definition nl : string := String (ascii_of_nat 10) EmptyString.

(** A number inside a template literal. *)
Definition nat_str (n : nat) : string := NilZero.string_of_uint (Nat.to_uint n).

Section Service.

Context {Document : Type}.
Variable env : Env Document.

Definition logger_error (msg : string) : M Document unit := emit (LoggerError msg).

Definition nullish_name (n : Nullish) : string :=
  match n with
  | JsNull => "null"
  | JsUndefined => "undefined"
  end.

(** The [TypeError] of a property read on [null] or [undefined]. *)
Definition property_read_error (n : Nullish) (property : string) : JsError :=
  mkError ("Cannot read properties of " ++ nullish_name n
           ++ " (reading '" ++ property ++ "')").

(** [error.message], as the catch blocks read it. *)
Definition error_message (error : Thrown) : M Document string :=
  match error with
  | Value e => ret (message e)
  | NullishValue n => throw (property_read_error n "message")
  end.

Definition logger_activity_ (msg : string) : M Document ActivityId :=
  call_sync (LoggerActivity msg) (fun h => Return (logger_activity env h msg)).

Definition logger_progress (a : ActivityId) (msg : string) : M Document unit :=
  emit (LoggerProgress a msg).

Definition logger_success (a : ActivityId) (msg : string) : M Document unit :=
  emit (LoggerSuccess a msg).

Definition stringify (doc : Document) : M Document string :=
  call_sync (JsonStringify doc) (fun _ => JSON_stringify env doc).

Definition parse (text : string) : M Document Document :=
  call_builtin (JsonParse text) (fun _ => JSON_parse env text).

(** [value.toString()] on a [Buffer | null]. *)
Definition toString (v : option string) : M Document string :=
  match v with
  | Some text => ret text
  | None =>
      throw (property_read_error JsNull "toString")
  end.

(** [Array.prototype.map] with a callback that has effects and may throw:
    elements are visited left to right and a throw ends the traversal. *)
Fixpoint array_map {A B} (f : A -> M Document B) (l : list A) : M Document (list B) :=
  match l with
  | [] => ret []
  | x :: l' => y <- f x ;; ys <- array_map f l' ;; ret (y :: ys)
  end.

(** Modelled from the spec: [storeConsumers], inherited from
    [AbstractQueueService] of @ocular/types, appends the entry to the
    process-wide table of consumers. *)
Definition storeConsumers (entry : ConsumerEntry) : M Document unit :=
  fun w =>
    (Normal tt, {| trace := trace w; consumers := consumers w ++ [entry] |}).

(** A call [consumer(docs, topic)]. *)
Definition call_consumer (consumer : Consumer Document)
    (docs : list Document) (topic : string) : M Document (Settled unit) :=
  match consumer with
  | Function f => call_async (HandlerCall docs topic) (fun h => f h docs topic)
  | NotFunction _ => throw (mkError "consumer is not a function")
  end.

(** *** Producer *)

Definition send (topicName : string) (data : Document) : M Document unit :=
  try_catch
    (p <- call_async ProducerConnect (producer_connect env) ;;
     await p ;;
     v <- stringify data ;;
     let record :=
       {| pr_topic := topicName; pr_messages := [ {| value := v |} ] |} in
     p <- call_async (ProducerSend record)
            (fun h => producer_send env h record) ;;
     await p ;;
     p <- call_async ProducerDisconnect (producer_disconnect env) ;;
     await p)
    (fun error =>
       msg <- error_message error ;;
       logger_error ("send: Error sending message to Kafka: " ++ msg)).

(** The callback of [data.map] in [sendBatch]. *)
Definition message_of (doc : Document) : M Document Message :=
  v <- stringify doc ;; ret {| value := v |}.

Definition sendBatch (topicName : string) (data : list Document) : M Document unit :=
  try_catch
    (p <- call_async ProducerConnect (producer_connect env) ;;
     await p ;;
     messages <- array_map message_of data ;;
     let topicMessages := {| topic := topicName; messages := messages |} in
     let batch := {| topicMessages := [ topicMessages ] |} in
     p <- call_async (ProducerSendBatch batch)
            (fun h => producer_sendBatch env h batch) ;;
     await p ;;
     p <- call_async ProducerDisconnect (producer_disconnect env) ;;
     await p)
    (fun error =>
       msg <- error_message error ;;
       logger_error
         ("sendBatch:Error sending batch message to Kafka: " ++ msg)).

(** *** Single-message consumer *)


(** The [eachMessage] callback of [subscribe].  The handler's promise is not
    awaited: [.catch] registers its callback on it and the promise is
    dropped, so the callback has returned before the handler settles. *)
Definition eachMessage (consumer : Consumer Document)
    (payload : EachMessagePayload) : M Document unit :=
  text <- toString (km_value (message_ payload)) ;;
  doc <- parse text ;;
  _ <- call_consumer consumer [doc] (emp_topic payload) ;;
  ret tt.


Definition subscribe_run_config : ConsumerRunConfig :=
  {| eachBatchAutoResolve := None; run_callback := EachMessage |}.

(** An [async] function: [Abrupt e] is the rejection of the promise the
    caller holds. *)
Definition subscribe (topicName : string) (consumer : Consumer Document)
    (context : ConsumerContext) : M Document unit :=
  if negb (is_function consumer)
  then throw (mkError "Subscriber must be a function")
  else
    emit (ConsoleLog ("Subscribing to topic " ++ topicName)) ;;
    let cfg := {| cfg_groupId := groupId context; sessionTimeout := None |} in
    kafkaConsumer <- call_sync (KafkaClientConsumer cfg)
                       (fun h => kafkaClient_consumer env h cfg) ;;
    p <- call_async (ConsumerConnect kafkaConsumer)
           (fun h => consumer_connect env h kafkaConsumer) ;;
    await p ;;
    let s := {| sub_topic := topicName; fromBeginning := false |} in
    p <- call_async (ConsumerSubscribe kafkaConsumer s)
           (fun h => consumer_subscribe env h kafkaConsumer s) ;;
    await p ;;
    _ <- call_async (ConsumerRun kafkaConsumer subscribe_run_config)
           (fun h => consumer_run env h kafkaConsumer subscribe_run_config) ;;
    randId <- call_sync Ulid (fun h => Return (ulid env h)) ;;
    let topic := topicName in
    storeConsumers
      {| topicName_ := topicName;
         consumerId := topic ++ "-" ++ randId;
         consumer_ := kafkaConsumer |}.

(** *** Batch consumer *)

(** [await consumer([docs[i]], topic)]: the loop resumes when the handler's
    promise has settled. *)
Definition await_handler (p : Settled unit) : M Document unit :=
  emit (HandlerSettled p) ;; await p.

Section EachBatch.

Variable topicName : string.
Variable consumer : Consumer Document.
Variable n : nat.
Variable eachBatchProcessingActivity : ActivityId.

(** [topic] is the constant that [subscribeBatch] declares after the call to
    [run]; it holds [topicName.toString()] by the time a batch arrives. *)
Definition closure_topic : string := topicName.

Definition progress_msg (i : nat) : string :=
  "eachBatch: Indexed " ++ nat_str i ++ " messages Out of  Received "
  ++ nat_str n ++ " messages in topic " ++ topicName ++ nl.

(** One round of the [for] loop, at index [i]. *)
Definition loop_body (doc : Document) (i : nat) : M Document unit :=
  p <- call_consumer consumer [doc] closure_topic ;;
  await_handler p ;;
  logger_progress eachBatchProcessingActivity (progress_msg i) ;;
  p <- call_async Heartbeat (heartbeat env) ;;
  await p.

(** [for (let i = ...; i < docs.length; i++)], with [rest] the documents
    from index [i] on. *)
Fixpoint for_docs (rest : list Document) (i : nat) : M Document unit :=
  match rest with
  | [] => ret tt
  | doc :: rest' => loop_body doc i ;; for_docs rest' (S i)
  end.

End EachBatch.

Definition received_msg (topicName : string) (n : nat) : string :=
  "eachBatch: Batch Received " ++ nat_str n ++ " messages in topic "
  ++ topicName ++ nl.

Definition finished_msg (topicName : string) (n : nat) : string :=
  "eachBatch: Finished Batch Processing " ++ nat_str n
  ++ " messages in topic " ++ topicName ++ nl.

Definition deserialize (m : KafkaMessage) : M Document Document :=
  text <- toString (km_value m) ;; parse text.

(** The [eachBatch] callback of [subscribeBatch]. *)
Definition eachBatch (topicName : string) (consumer : Consumer Document)
    (payload : EachBatchPayload) : M Document unit :=
  let n := List.length (batch_messages (batch payload)) in
  try_catch
    (eachBatchProcessingActivity <-
       logger_activity_ (received_msg topicName n) ;;
     docs <- array_map deserialize (batch_messages (batch payload)) ;;
     for_docs topicName consumer n eachBatchProcessingActivity docs 0 ;;
     logger_success eachBatchProcessingActivity (finished_msg topicName n))
    (fun error =>
       msg <- error_message error ;;
       logger_error ("eachBatch: Error processing message: " ++ msg)).

Definition subscribeBatch_run_config : ConsumerRunConfig :=
  {| eachBatchAutoResolve := Some true; run_callback := EachBatch |}.

Definition subscribeBatch (topicName : string) (consumer : Consumer Document)
    (context : ConsumerContext) : M Document unit :=
  try_catch
    ((if negb (is_function consumer)
      then throw (mkError "Subscriber must be a function")
      else ret tt) ;;
     let cfg :=
       {| cfg_groupId := groupId context; sessionTimeout := Some 60000%N |} in
     kafkaConsumer <- call_sync (KafkaClientConsumer cfg)
                        (fun h => kafkaClient_consumer env h cfg) ;;
     _ <- call_async (ConsumerConnect kafkaConsumer)
            (fun h => consumer_connect env h kafkaConsumer) ;;
     let s := {| sub_topic := topicName; fromBeginning := false |} in
     _ <- call_async (ConsumerSubscribe kafkaConsumer s)
            (fun h => consumer_subscribe env h kafkaConsumer s) ;;
     _ <- call_async (ConsumerRun kafkaConsumer subscribeBatch_run_config)
            (fun h =>
               consumer_run env h kafkaConsumer subscribeBatch_run_config) ;;
     randId <- call_sync Ulid (fun h => Return (ulid env h)) ;;
     let topic := topicName in
     storeConsumers
       {| topicName_ := topicName;
          consumerId := topic ++ "-" ++ randId;
          consumer_ := kafkaConsumer |})
    (fun error =>
       msg <- error_message error ;;
       logger_error ("subscribeBatch: Error subscribing to topic: " ++ msg)).

End Service.

(** What the kafkajs runner does with a batch once its [eachBatch] promise
    has settled: with [eachBatchAutoResolve] on (the default) a fulfilled
    callback resolves the offsets of the whole batch; a rejected one leaves
    them unresolved, and the batch is fetched again. *)
Definition batch_resolved {A} (cfg : ConsumerRunConfig) (c : Completion A)
  : bool :=
  match c with
  | Normal _ =>
      match eachBatchAutoResolve cfg with
      | Some b => b
      | None => true
      end
  | Abrupt _ => false
  end.

(** * Specification vocabulary *)

(** An asynchronous call fails with [e]: it throws, or its promise rejects. *)
Definition failed {A} (x : Async A) (e : Thrown) : Prop :=
  x = SyncThrow e \/ x = Promise (Rejected e).

(** What a catch block of the form
    [catch (error) { logger.error(`<prefix>${error.message}`) }] does with the
    value it is handed, in world [w]. *)
Definition caught {Document : Type} (prefix : string) (error : Thrown)
    (w : World Document) : Completion unit * World Document :=
  match error with
  | Value e => (Normal tt, extend w [LoggerError (prefix ++ message e)])
  | NullishValue n => (Abrupt (property_read_error n "message"), w)
  end.

(** ** Producer *)

Section Producer.

Context {Document : Type}.
Variable env : Env Document.
Implicit Types (w : World Document) (delta : list (Event Document)).

Definition send_record (topicName v : string) : ProducerRecord :=
  {| pr_topic := topicName; pr_messages := [ {| value := v |} ] |}.

(** The first step of [send topicName data], started in world [w], that fails:
    the error it fails with and the calls made up to and including it. *)
Inductive send_failure w (topicName : string) (data : Document)
  : Thrown -> list (Event Document) -> Prop :=
| connection_failure e :
    failed (producer_connect env (trace w)) e ->
    send_failure w topicName data e [ProducerConnect]
| serialization_failure e :
    producer_connect env (trace w) = Promise (Fulfilled tt) ->
    JSON_stringify env data = Throw e ->
    send_failure w topicName data e [ProducerConnect; JsonStringify data]
| broker_rejection e v :
    producer_connect env (trace w) = Promise (Fulfilled tt) ->
    JSON_stringify env data = Return v ->
    failed (producer_send env (trace w ++ [ProducerConnect; JsonStringify data])
              (send_record topicName v)) e ->
    send_failure w topicName data e
      [ProducerConnect; JsonStringify data;
       ProducerSend (send_record topicName v)]
| disconnect_failure e v :
    producer_connect env (trace w) = Promise (Fulfilled tt) ->
    JSON_stringify env data = Return v ->
    producer_send env (trace w ++ [ProducerConnect; JsonStringify data])
      (send_record topicName v) = Promise (Fulfilled tt) ->
    failed (producer_disconnect env
              (trace w ++ [ProducerConnect; JsonStringify data;
                           ProducerSend (send_record topicName v)])) e ->
    send_failure w topicName data e
      [ProducerConnect; JsonStringify data;
       ProducerSend (send_record topicName v); ProducerDisconnect].

(** Every document of [docs] serialises, to the texts [vs]. *)
Definition serialized (docs : list Document) (vs : list string) : Prop :=
  Forall2 (fun doc v => JSON_stringify env doc = Return v) docs vs.

(** The one-group batch for [topicName] whose messages carry the texts [vs]. *)
Definition batch_of (topicName : string) (vs : list string) : ProducerBatch :=
  {| topicMessages :=
       [ {| topic := topicName;
            messages := map (fun v => {| value := v |}) vs |} ] |}.

End Producer.

(** ** Batch consumer *)

Section BatchVocabulary.

Context {Document : Type}.
Variable env : Env Document.

Definition null_toString_error : JsError :=
  property_read_error JsNull "toString".

(** What deserialising the payload of [m] yields. *)
Definition payload_value (m : KafkaMessage) : Builtin Document :=
  match km_value m with
  | Some text => JSON_parse env text
  | None => Throw null_toString_error
  end.

(** The parser calls made for the messages [ms]. *)
Definition parse_events (ms : list KafkaMessage) : list (Event Document) :=
  flat_map (fun m => match km_value m with
                     | Some text => [JsonParse text]
                     | None => []
                     end) ms.

(** Every message of [ms] deserialises, to the documents [docs]. *)
Definition deserialized (ms : list KafkaMessage) (docs : list Document)
  : Prop :=
  Forall2 (fun m doc => payload_value m = Return doc) ms docs.

(** The events of the rounds of the loop for [docs], the first at index [i],
    when handler and heartbeat resolve in each. *)
Fixpoint rounds (topicName : string) (n : nat) (a : ActivityId)
    (docs : list Document) (i : nat) : list (Event Document) :=
  match docs with
  | [] => []
  | doc :: docs' =>
      [HandlerCall [doc] topicName; HandlerSettled (Fulfilled tt);
       LoggerProgress a (progress_msg topicName n i); Heartbeat]
      ++ rounds topicName n a docs' (S i)
  end.

(** The handler invocations recorded in a trace. *)
Definition handler_calls (delta : list (Event Document))
  : list (list Document * string) :=
  flat_map (fun ev => match ev with
                      | HandlerCall docs topic => [(docs, topic)]
                      | _ => []
                      end) delta.

Definition heartbeats (delta : list (Event Document)) : nat :=
  List.length (filter (fun ev => match ev with
                                 | Heartbeat => true
                                 | _ => false
                                 end) delta).

Definition error_logs (delta : list (Event Document)) : list string :=
  flat_map (fun ev => match ev with
                      | LoggerError msg => [msg]
                      | _ => []
                      end) delta.

(** What [eachBatch] records before the loop when every payload
    deserialises. *)
Definition batch_start (topicName : string) (ms : list KafkaMessage)
  : list (Event Document) :=
  LoggerActivity (received_msg topicName (List.length ms)) :: parse_events ms.

(** In the round for [doc] at index [i], entered with history [h], the
    handler [f] and then the heartbeat resolve. *)
Definition round_resolves (topicName : string) (n : nat) (a : ActivityId)
    (f : History Document -> list Document -> string -> Async unit)
    (h : History Document) (doc : Document) (i : nat) : Prop :=
  f h [doc] topicName = Promise (Fulfilled tt) /\
  heartbeat env
    (h ++ [HandlerCall [doc] topicName; HandlerSettled (Fulfilled tt);
           LoggerProgress a (progress_msg topicName n i)])
  = Promise (Fulfilled tt).

End BatchVocabulary.

(** ** A small program logic for traces

    [emits P Q m]: run from any world, [m] leaves the registry alone, every
    event it records satisfies [P], and a value it returns satisfies [Q]. *)

Section Traces.

Context {Document : Type}.

Definition emits {A} (P : Event Document -> Prop) (Q : A -> Prop)
    (m : M Document A) : Prop :=
  forall w,
  exists delta,
    snd (m w) = extend w delta /\
    Forall P delta /\
    (forall a, fst (m w) = Normal a -> Q a).

End Traces.

(** ** Registration *)

Section SubscribeVocabulary.

Context {Document : Type}.

(** The session configuration and the subscription that [subscribe] and
    [subscribeBatch] are allowed to issue for [topicName] and [context]. *)
Definition session_scoped (topicName : string) (context : ConsumerContext)
    (ev : Event Document) : Prop :=
  match ev with
  | KafkaClientConsumer cfg => cfg_groupId cfg = groupId context
  | ConsumerSubscribe _ s =>
      s = {| sub_topic := topicName; fromBeginning := false |}
  | _ => True
  end.

End SubscribeVocabulary.

(** ** Vocabulary of the further properties *)

Section MoreVocabulary.

Context {Document : Type}.

(** The two registration entry points. *)
Inductive Mode := PerMessage | PerBatch.

Definition register (env : Env Document) (mode : Mode)
  : string -> Consumer Document -> ConsumerContext -> M Document unit :=
  match mode with
  | PerMessage => subscribe env
  | PerBatch => subscribeBatch env
  end.

(** The session and run configurations each entry point is written to use. *)
Definition configured (mode : Mode) (ev : Event Document) : Prop :=
  match ev with
  | KafkaClientConsumer cfg =>
      sessionTimeout cfg = match mode with
                           | PerMessage => None
                           | PerBatch => Some 60000%N
                           end
  | ConsumerRun _ rc =>
      rc = match mode with
           | PerMessage =>
               {| eachBatchAutoResolve := None; run_callback := EachMessage |}
           | PerBatch =>
               {| eachBatchAutoResolve := Some true;
                  run_callback := EachBatch |}
           end
  | _ => True
  end.

(** A broker that hands a consumer the messages of one topic-messages group
    as one batch, payloads and order unchanged. *)
Definition delivered (tm : TopicMessages) : EachBatchPayload :=
  {| batch :=
       {| batch_messages :=
            map (fun m => {| km_value := Some (value m) |}) (messages tm) |} |}.

(** Identifiers drawn at different moments differ. *)
Definition ulid_fresh (env : Env Document) : Prop :=
  forall h h' : History Document,
    List.length h <> List.length h' -> ulid env h <> ulid env h'.

(** [raises R Q m]: run from any world, a value that [m] throws satisfies
    [R], and a value that it returns satisfies [Q]. *)
Definition raises {A} (R : Thrown -> Prop) (Q : A -> Prop)
    (m : M Document A) : Prop :=
  forall w,
    match fst (m w) with
    | Normal a => Q a
    | Abrupt e => R e
    end.

(** A value on which [.message] can be read. *)
Definition readable (e : Thrown) : Prop := exists e', e = Value e'.

Definition throws_readably {A} (x : Exc A) : Prop :=
  forall e, x = Throw e -> readable e.

Definition fails_readably {A} (x : Async A) : Prop :=
  forall e, failed x e -> readable e.

(** Collaborators that never fail with [null] or [undefined]: a serialiser
    and a broker client whose errors are objects. *)
Record error_valued (env : Env Document) : Prop := {
  stringify_readable : forall doc, throws_readably (JSON_stringify env doc);
  producer_connect_readable :
    forall h, fails_readably (producer_connect env h);
  producer_send_readable :
    forall h record, fails_readably (producer_send env h record);
  producer_sendBatch_readable :
    forall h b, fails_readably (producer_sendBatch env h b);
  producer_disconnect_readable :
    forall h, fails_readably (producer_disconnect env h);
  kafkaClient_consumer_readable :
    forall h cfg, throws_readably (kafkaClient_consumer env h cfg);
  consumer_connect_readable :
    forall h c, fails_readably (consumer_connect env h c);
  consumer_subscribe_readable :
    forall h c s, fails_readably (consumer_subscribe env h c s);
  consumer_run_readable :
    forall h c rc, fails_readably (consumer_run env h c rc);
  heartbeat_readable : forall h, fails_readably (heartbeat env h)
}.

(** A handler that never fails with [null] or [undefined]. *)
Definition error_valued_handler (consumer : Consumer Document) : Prop :=
  match consumer with
  | Function f => forall h docs topic, fails_readably (f h docs topic)
  | NotFunction _ => True
  end.

End MoreVocabulary.

(** ** A concrete environment

    Documents are natural numbers, serialised as their decimal numerals (a
    fragment of JSON); every broker call succeeds. *)

Module Sample.

Definition parse_number (text : string) : Builtin nat :=
  match NilZero.uint_of_string text with
  | Some u => Return (Nat.of_uint u)
  | None => Throw (mkError "Unexpected token in JSON")
  end.

Definition calm : Env nat :=
  {| JSON_stringify := fun doc => Return (nat_str doc);
     JSON_parse := parse_number;
     producer_connect := fun _ => Promise (Fulfilled tt);
     producer_send := fun _ _ => Promise (Fulfilled tt);
     producer_sendBatch := fun _ _ => Promise (Fulfilled tt);
     producer_disconnect := fun _ => Promise (Fulfilled tt);
     kafkaClient_consumer := fun _ _ => Return 7;
     consumer_connect := fun _ _ => Promise (Fulfilled tt);
     consumer_subscribe := fun _ _ _ => Promise (Fulfilled tt);
     consumer_run := fun _ _ _ => Promise (Fulfilled tt);
     heartbeat := fun _ => Promise (Fulfilled tt);
     logger_activity := fun _ _ => 0;
     ulid := fun _ => "01ARZ3NDEKTSV4RRFFQ69G5FAV" |}.

Definition w0 : World nat := {| trace := []; consumers := [] |}.

Definition msg (text : string) : KafkaMessage := {| km_value := Some text |}.

Definition payload (texts : list string) : EachBatchPayload :=
  {| batch := {| batch_messages := map msg texts |} |}.

End Sample.

(** Variations: brokers and handlers that fail. *)

Module Runs.

Import Sample.

Definition resolved : Async unit := Promise (Fulfilled tt).

(** A broker whose producer rejects every record. *)
Definition rejecting_send : Env nat :=
  {| JSON_stringify := JSON_stringify calm;
     JSON_parse := JSON_parse calm;
     producer_connect := producer_connect calm;
     producer_send :=
       fun _ _ => Promise (Rejected (mkError "broker rejected the record"));
     producer_sendBatch := producer_sendBatch calm;
     producer_disconnect := producer_disconnect calm;
     kafkaClient_consumer := kafkaClient_consumer calm;
     consumer_connect := consumer_connect calm;
     consumer_subscribe := consumer_subscribe calm;
     consumer_run := consumer_run calm;
     heartbeat := heartbeat calm;
     logger_activity := logger_activity calm;
     ulid := ulid calm |}.

(** A broker that answers every consumer connect with [answer]. *)
Definition connect_answers (answer : Async unit) : Env nat :=
  {| JSON_stringify := JSON_stringify calm;
     JSON_parse := JSON_parse calm;
     producer_connect := producer_connect calm;
     producer_send := producer_send calm;
     producer_sendBatch := producer_sendBatch calm;
     producer_disconnect := producer_disconnect calm;
     kafkaClient_consumer := kafkaClient_consumer calm;
     consumer_connect := fun _ _ => answer;
     consumer_subscribe := consumer_subscribe calm;
     consumer_run := consumer_run calm;
     heartbeat := heartbeat calm;
     logger_activity := logger_activity calm;
     ulid := ulid calm |}.

Definition unreachable : JsError := mkError "connect ECONNREFUSED".

(** A handler that rejects its second call and resolves every other one. *)
Definition second_call_rejects
  : History nat -> list nat -> string -> Async unit :=
  fun h _ _ =>
    if Nat.eqb (List.length (handler_calls h)) 1
    then Promise (Rejected (mkError "handler failed"))
    else resolved.

Definition always_resolves
  : History nat -> list nat -> string -> Async unit :=
  fun _ _ _ => resolved.

(** A handler whose second call ends in [Promise.reject()]. *)
Definition second_call_rejects_undefined
  : History nat -> list nat -> string -> Async unit :=
  fun h _ _ =>
    if Nat.eqb (List.length (handler_calls h)) 1
    then Promise (Rejected (NullishValue JsUndefined))
    else resolved.

(** A broker whose producer refuses to connect, and rejects with [null]. *)
Definition connect_rejects_null : Env nat :=
  {| JSON_stringify := JSON_stringify calm;
     JSON_parse := JSON_parse calm;
     producer_connect := fun _ => Promise (Rejected (NullishValue JsNull));
     producer_send := producer_send calm;
     producer_sendBatch := producer_sendBatch calm;
     producer_disconnect := producer_disconnect calm;
     kafkaClient_consumer := kafkaClient_consumer calm;
     consumer_connect := consumer_connect calm;
     consumer_subscribe := consumer_subscribe calm;
     consumer_run := consumer_run calm;
     heartbeat := heartbeat calm;
     logger_activity := logger_activity calm;
     ulid := ulid calm |}.

Definition g1 : ConsumerContext :=
  {| groupId := "g1"; sessionTimeoutMs := 30000%N |}.

(** [n] strokes. *)
Fixpoint tally (n : nat) : string :=
  match n with
  | 0 => EmptyString
  | S k => String "I"%char (tally k)
  end.

(** The calm broker with identifiers that count the events so far. *)
Definition ticking : Env nat :=
  {| JSON_stringify := JSON_stringify calm;
     JSON_parse := JSON_parse calm;
     producer_connect := producer_connect calm;
     producer_send := producer_send calm;
     producer_sendBatch := producer_sendBatch calm;
     producer_disconnect := producer_disconnect calm;
     kafkaClient_consumer := kafkaClient_consumer calm;
     consumer_connect := consumer_connect calm;
     consumer_subscribe := consumer_subscribe calm;
     consumer_run := consumer_run calm;
     heartbeat := heartbeat calm;
     logger_activity := logger_activity calm;
     ulid := fun h => tally (List.length h) |}.


Definition always_rejects
  : History nat -> list nat -> string -> Async unit :=
  fun _ _ _ => Promise (Rejected (mkError "handler failed")).

Definition always_throws
  : History nat -> list nat -> string -> Async unit :=
  fun _ _ _ => SyncThrow (mkError "handler threw").

Definition one_message (text : string) : EachMessagePayload :=
  {| emp_topic := "docs"; partition := 0; message_ := msg text |}.


End Runs.

(** * Lemmas and theorems *)

Section Facts.

Context {Document : Type}.
Implicit Types (w : World Document) (delta : list (Event Document)).

Lemma extend_nil w : extend w [] = w.
Proof. destruct w; unfold extend; simpl; now rewrite app_nil_r. Qed.

Lemma extend_extend w delta delta' :
  extend (extend w delta) delta' = extend w (delta ++ delta').
Proof. unfold extend; simpl; now rewrite app_assoc. Qed.

Lemma record_event_extend w delta ev :
  record_event ev (extend w delta) = extend w (delta ++ [ev]).
Proof. apply extend_extend. Qed.

Lemma extend_inj w delta delta' : extend w delta = extend w delta' -> delta = delta'.
Proof.
  unfold extend; intros H; injection H as H.
  now apply app_inv_head in H.
Qed.

(** The two ways a logging catch block ends. *)
Lemma caught_run (prefix : string) (e : Thrown) w delta :
  exists r tail,
    caught prefix e (extend w delta) = (r, extend w (delta ++ tail)) /\
    ((exists e',
        e = Value e' /\ r = Normal tt /\
        tail = [LoggerError (prefix ++ message e')])
     \/
     (exists n,
        e = NullishValue n /\
        r = Abrupt (property_read_error n "message") /\ tail = [])).
Proof.
  destruct e as [e'|n]; unfold caught.
  - exists (Normal tt), [LoggerError (prefix ++ message e')].
    rewrite extend_extend. split; [reflexivity|left; eauto].
  - exists (Abrupt (property_read_error n "message")), [].
    rewrite app_nil_r. split; [reflexivity|right; eauto].
Qed.

End Facts.

(** Bring worlds and histories to the form [trace w ++ [ev1; ...; evn]]. *)
Ltac world_norm :=
  unfold record_event, extend in *;
  cbn [trace consumers fst snd] in *;
  rewrite <- ?app_assoc in *;
  cbn [app] in *.

Ltac list_norm :=
  rewrite ?extend_extend;
  repeat (progress (cbn [app]; rewrite <- ?app_assoc)).

Ltac run_monad :=
  unfold try_catch, bind, call_async, call_sync, call_builtin, await, emit,
    ret, throw.

Ltac in_cases H :=
  cbn [In app] in H;
  repeat (destruct H as [H|H]; try discriminate);
  try contradiction.

(** Closes a leaf of the case analysis of a registration: the events are
    known, and so are the answers of the session and connect calls. *)
Ltac sessions_leaf :=
  eexists; split; [reflexivity|];
  split; [repeat constructor|];
  split; [intros _; cbn [In]; tauto|];
  intros; cbn [In];
  repeat match goal with
         | H : Return _ = Return _ |- _ => injection H as <-
         | H : ?x = _, H' : ?x = _ |- _ => rewrite H in H'
         end;
  try discriminate;
  tauto.

(** ** Producer *)

Section ProducerFacts.

Context {Document : Type}.
Variable env : Env Document.
Implicit Types (w : World Document) (delta : list (Event Document)).

(** [send] when one of its steps fails: nothing else is attempted, and the
    catch block is handed the failure value. *)
Lemma send_failure_run (topicName : string) (data : Document)
    (e : Thrown) (pre : list (Event Document)) w :
  send_failure env w topicName data e pre ->
  send env topicName data w
  = caught "send: Error sending message to Kafka: " e (extend w pre).
Proof.
  intros H.
  unfold send, stringify, logger_error, error_message, caught; run_monad.
  destruct H as [e Hc|e Hc Hs|e v Hc Hs Hp|e v Hc Hs Hp Hd].
  - destruct Hc as [-> | ->]; world_norm; destruct e; world_norm; reflexivity.
  - rewrite Hc; world_norm. rewrite Hs; world_norm.
    destruct e; world_norm; reflexivity.
  - rewrite Hc; world_norm. rewrite Hs; world_norm. unfold send_record in *.
    destruct Hp as [Hp|Hp]; rewrite Hp; world_norm;
      destruct e; world_norm; reflexivity.
  - rewrite Hc; world_norm. rewrite Hs; world_norm. unfold send_record in *.
    rewrite Hp; world_norm.
    destruct Hd as [Hd|Hd]; rewrite Hd; world_norm;
      destruct e; world_norm; reflexivity.
Qed.

(** Every run of [send]: all four steps succeed, or there is a first step
    that fails. *)
Lemma send_outcome (topicName : string) (data : Document) w :
  (exists v,
     producer_connect env (trace w) = Promise (Fulfilled tt) /\
     JSON_stringify env data = Return v /\
     producer_send env (trace w ++ [ProducerConnect; JsonStringify data])
       (send_record topicName v) = Promise (Fulfilled tt) /\
     send env topicName data w =
       (Normal tt,
        extend w [ProducerConnect; JsonStringify data;
                  ProducerSend (send_record topicName v); ProducerDisconnect]))
  \/
  (exists e pre, send_failure env w topicName data e pre).
Proof.
  destruct (producer_connect env (trace w)) as [e|[[]|e]] eqn:Hc.
  - right; exists e, [ProducerConnect]; constructor; now left.
  - destruct (JSON_stringify env data) as [v|e] eqn:Hs.
    + destruct (producer_send env (trace w ++ [ProducerConnect; JsonStringify data])
                  (send_record topicName v)) as [e|[[]|e]] eqn:Hp.
      * right; exists e; eexists; eapply broker_rejection; eauto; now left.
      * destruct (producer_disconnect env
                    (trace w ++ [ProducerConnect; JsonStringify data;
                                 ProducerSend (send_record topicName v)]))
          as [e|[[]|e]] eqn:Hd.
        -- right; exists e; eexists; eapply disconnect_failure; eauto; now left.
        -- left; exists v.
           split; [reflexivity|split; [reflexivity|split; [exact Hp|]]].
           unfold send, stringify; run_monad.
           rewrite Hc; world_norm. rewrite Hs; world_norm.
           unfold send_record in *.
           rewrite Hp; world_norm. rewrite Hd; world_norm. reflexivity.
        -- right; exists e; eexists; eapply disconnect_failure; eauto; now right.
      * right; exists e; eexists; eapply broker_rejection; eauto; now right.
    + right; exists e; eexists; eapply serialization_failure; eauto.
  - right; exists e, [ProducerConnect]; constructor; now right.
Qed.

Lemma send_failure_quiet (topicName : string) (data : Document)
    (e : Thrown) (pre : list (Event Document)) w :
  send_failure env w topicName data e pre -> error_logs pre = [].
Proof. now destruct 1. Qed.

(** C5: a failure value that is [null] or [undefined] gets past the catch
    block of [send].  Whichever step fails with it (the connection, the
    serialisation, the publish or the disconnect), the read of
    [error.message] throws, so [send] rejects with that [TypeError] and
    nothing is logged. *)
Theorem send_rejects_on_nullish_failure (topicName : string) (data : Document)
    (n : Nullish) (pre : list (Event Document)) w :
  send_failure env w topicName data (NullishValue n) pre ->
  send env topicName data w
  = (Abrupt (property_read_error n "message"), extend w pre) /\
  error_logs pre = [].
Proof.
  intros H; split.
  - now rewrite (send_failure_run _ _ _ _ _ H).
  - exact (send_failure_quiet _ _ _ _ _ H).
Qed.

(** C6, as amended: when the connection, the serialisation and the publish
    succeed, [send] has connected, serialised the document, published one
    record holding exactly one message, the serialised document, to the
    topic, and then called disconnect; if the disconnect succeeds nothing
    else happens.  The call completes normally, unless the disconnect fails
    with [null] or [undefined]. *)
Theorem send_publishes_then_disconnects
    (topicName : string) (data : Document) (v : string) w :
  producer_connect env (trace w) = Promise (Fulfilled tt) ->
  JSON_stringify env data = Return v ->
  producer_send env (trace w ++ [ProducerConnect; JsonStringify data])
    (send_record topicName v) = Promise (Fulfilled tt) ->
  exists r tail,
    send env topicName data w =
      (r,
       extend w
         ([ProducerConnect; JsonStringify data;
           ProducerSend
             {| pr_topic := topicName; pr_messages := [ {| value := v |} ] |};
           ProducerDisconnect] ++ tail)) /\
    (producer_disconnect env
       (trace w ++ [ProducerConnect; JsonStringify data;
                    ProducerSend (send_record topicName v)])
     = Promise (Fulfilled tt) -> tail = []) /\
    (r = Normal tt \/
     exists n,
       failed (producer_disconnect env
                 (trace w ++ [ProducerConnect; JsonStringify data;
                              ProducerSend (send_record topicName v)]))
         (NullishValue n)).
Proof.
  intros Hc Hs Hp.
  unfold send, stringify, logger_error, error_message; run_monad.
  rewrite Hc; world_norm. rewrite Hs; world_norm.
  unfold send_record in *. rewrite Hp; world_norm.
  destruct (producer_disconnect env _) as [e|[[]|e]] eqn:Hd; world_norm.
  - destruct e as [e|n]; world_norm.
    + eexists; eexists; split; [reflexivity|split; [discriminate|now left]].
    + exists (Abrupt (property_read_error n "message")), [].
      split; [reflexivity|split; [discriminate|right; exists n; now left]].
  - exists (Normal tt), []; split; [reflexivity|split; [reflexivity|now left]].
  - destruct e as [e|n]; world_norm.
    + eexists; eexists; split; [reflexivity|split; [discriminate|now left]].
    + exists (Abrupt (property_read_error n "message")), [].
      split; [reflexivity|split; [discriminate|right; exists n; now right]].
Qed.

Lemma array_map_cons {A B} (f : A -> M Document B) (x : A) (l : list A) w :
  array_map f (x :: l) w =
  match f x w with
  | (Normal y, w') =>
      match array_map f l w' with
      | (Normal ys, w'') => (Normal (y :: ys), w'')
      | (Abrupt e, w'') => (Abrupt e, w'')
      end
  | (Abrupt e, w') => (Abrupt e, w')
  end.
Proof.
  cbn [array_map]; unfold bind, ret.
  destruct (f x w) as [[y|e] w']; [|reflexivity].
  now destruct (array_map f l w') as [[ys|e] w''].
Qed.

Lemma message_of_run (doc : Document) w :
  message_of env doc w =
  match JSON_stringify env doc with
  | Return v => (Normal {| value := v |}, extend w [JsonStringify doc])
  | Throw e => (Abrupt e, extend w [JsonStringify doc])
  end.
Proof.
  unfold message_of, stringify; run_monad.
  now destruct (JSON_stringify env doc).
Qed.

(** [array_map] over the serialiser: either every document serialises, or
    the traversal stops at the first one that does not. *)
Lemma array_map_stringify (docs : list Document) w :
  (exists vs,
     serialized env docs vs /\
     array_map (message_of env) docs w
     = (Normal (map (fun v => {| value := v |}) vs),
        extend w (map JsonStringify docs)))
  \/
  (exists e k,
     array_map (message_of env) docs w
     = (Abrupt e, extend w (map JsonStringify (firstn k docs)))).
Proof.
  revert w; induction docs as [|doc docs IH]; intros w.
  - left; exists []; split; [constructor|].
    cbn [array_map map]; unfold ret; now rewrite extend_nil.
  - rewrite array_map_cons, message_of_run.
    destruct (JSON_stringify env doc) as [v|e] eqn:Hs.
    + destruct (IH (extend w [JsonStringify doc])) as
        [(vs & Hvs & Hrun)|(e & k & Hrun)]; rewrite Hrun.
      * left; exists (v :: vs); split; [now constructor|].
        now rewrite extend_extend.
      * right; exists e, (S k). cbn [firstn map]. now rewrite extend_extend.
    + right; exists e, 1. reflexivity.
Qed.

Lemma serialized_functional (docs : list Document) (vs vs' : list string) :
  serialized env docs vs -> serialized env docs vs' -> vs = vs'.
Proof.
  intros H; revert vs'; induction H as [|doc v docs vs Hv _ IH]; intros vs' H';
    inversion H' as [|? v' ? vs'' Hv' Hrest]; subst; [reflexivity|].
  rewrite Hv in Hv'; injection Hv' as ->. f_equal; auto.
Qed.

Lemma array_map_stringify_ok (docs : list Document) (vs : list string) :
  serialized env docs vs ->
  forall w,
    array_map (message_of env) docs w
    = (Normal (map (fun v => {| value := v |}) vs),
       extend w (map JsonStringify docs)).
Proof.
  induction 1 as [|doc v docs vs Hv _ IH]; intros w.
  - cbn [array_map map]; unfold ret; now rewrite extend_nil.
  - rewrite array_map_cons, message_of_run, Hv, IH, extend_extend.
    reflexivity.
Qed.



End ProducerFacts.

(** ** Batch consumer *)

Section BatchFacts.

Context {Document : Type}.
Variable env : Env Document.
Implicit Types (w : World Document) (delta : list (Event Document)).

Lemma deserialize_run (m : KafkaMessage) w :
  deserialize env m w =
  match km_value m with
  | Some text =>
      match JSON_parse env text with
      | Return doc => (Normal doc, extend w [JsonParse text])
      | Throw e => (Abrupt e, extend w [JsonParse text])
      end
  | None => (Abrupt null_toString_error, w)
  end.
Proof.
  unfold deserialize, toString, parse; run_monad.
  destruct (km_value m) as [text|]; [|reflexivity].
  now destruct (JSON_parse env text).
Qed.

Lemma array_map_deserialize_ok (ms : list KafkaMessage) (docs : list Document) :
  deserialized env ms docs ->
  forall w,
    array_map (deserialize env) ms w
    = (Normal docs, extend w (parse_events ms)).
Proof.
  induction 1 as [|m doc ms docs Hm _ IH]; intros w.
  - cbn [array_map parse_events flat_map]; unfold ret; now rewrite extend_nil.
  - rewrite array_map_cons, deserialize_run.
    unfold payload_value in Hm. unfold parse_events; cbn [flat_map].
    destruct (km_value m) as [text|]; [|discriminate].
    rewrite Hm, IH, extend_extend. reflexivity.
Qed.

(** Deserialising a batch either yields a document for every message, or
    stops at the first payload that does not deserialise; only the parser
    has been called by then. *)
Lemma array_map_deserialize (ms : list KafkaMessage) w :
  (exists docs,
     deserialized env ms docs /\
     array_map (deserialize env) ms w
     = (Normal docs, extend w (parse_events ms)))
  \/
  (exists e good bad rest,
     ms = good ++ bad :: rest /\
     (exists docs, deserialized env good docs) /\
     payload_value env bad = Throw e /\
     array_map (deserialize env) ms w
     = (Abrupt e, extend w (parse_events (good ++ [bad])))).
Proof.
  revert w; induction ms as [|m ms IH]; intros w.
  - left; exists []; split; [constructor|].
    cbn [array_map parse_events flat_map]; unfold ret; now rewrite extend_nil.
  - rewrite array_map_cons, deserialize_run.
    destruct (payload_value env m) as [doc|e] eqn:Hm.
    + assert (Hstep :
        exists text, km_value m = Some text /\ JSON_parse env text = Return doc).
      { unfold payload_value in Hm.
        destruct (km_value m) as [text|]; [eauto|discriminate]. }
      destruct Hstep as (text & Hv & Hp). rewrite Hv, Hp.
      destruct (IH (extend w [JsonParse text]))
        as [(docs & Hdocs & Hrun)|(e & good & bad & rest & -> & Hgood & Hbad & Hrun)];
        rewrite Hrun, extend_extend.
      * left; exists (doc :: docs); split; [now constructor|].
        unfold parse_events in *; cbn [flat_map]; now rewrite Hv.
      * right; exists e, (m :: good), bad, rest.
        destruct Hgood as (docs & Hdocs).
        repeat split; eauto.
        -- exists (doc :: docs); now constructor.
        -- unfold parse_events; cbn [flat_map app]; now rewrite Hv.
    + right; exists e, [], m, ms; repeat split; eauto.
      * exists []; constructor.
      * unfold payload_value in Hm; unfold parse_events; cbn [app flat_map].
        destruct (km_value m) as [text|].
        -- rewrite Hm; now rewrite app_nil_r.
        -- injection Hm as <-. cbn [app]. now rewrite extend_nil.
Qed.

End BatchFacts.

Section Emits.

Context {Document : Type}.
Implicit Types (w : World Document) (delta : list (Event Document)).

Variable P : Event Document -> Prop.

Lemma emits_ret {A} (Q : A -> Prop) (a : A) : Q a -> emits P Q (ret a).
Proof.
  intros Ha w; exists []; unfold ret; cbn [fst snd].
  rewrite extend_nil; repeat split; [constructor|].
  intros a' H; now injection H as <-.
Qed.

Lemma emits_throw {A} (Q : A -> Prop) (e : Thrown) : emits P Q (throw e).
Proof.
  intros w; exists []; unfold throw; cbn [fst snd].
  rewrite extend_nil; repeat split; [constructor|discriminate].
Qed.

Lemma emits_weaken {A} (Q Q' : A -> Prop) (m : M Document A) :
  (forall a, Q a -> Q' a) -> emits P Q m -> emits P Q' m.
Proof.
  intros HQ Hm w. destruct (Hm w) as (delta & Hw & HP & Ha).
  exists delta; repeat split; auto.
Qed.

Lemma emits_bind {A B} (Q : A -> Prop) (R : B -> Prop)
    (m : M Document A) (k : A -> M Document B) :
  emits P Q m -> (forall a, Q a -> emits P R (k a)) -> emits P R (bind m k).
Proof.
  intros Hm Hk w. destruct (Hm w) as (delta & Hw & HP & Ha).
  unfold bind. destruct (m w) as [[a|e] w']; cbn [fst snd] in *; subst w'.
  - destruct (Hk a (Ha a eq_refl) (extend w delta)) as (delta' & Hw' & HP' & Hb).
    exists (delta ++ delta'). rewrite Hw', extend_extend.
    repeat split; [now apply Forall_app|exact Hb].
  - exists delta; repeat split; [exact HP|discriminate].
Qed.

Lemma emits_try_catch {A} (Q : A -> Prop)
    (body : M Document A) (handler : Thrown -> M Document A) :
  emits P Q body -> (forall e, emits P Q (handler e)) ->
  emits P Q (try_catch body handler).
Proof.
  intros Hm Hh w. destruct (Hm w) as (delta & Hw & HP & Ha).
  unfold try_catch. destruct (body w) as [[a|e] w']; cbn [fst snd] in *; subst w'.
  - exists delta; repeat split; auto.
  - destruct (Hh e (extend w delta)) as (delta' & Hw' & HP' & Hb).
    exists (delta ++ delta'). rewrite Hw', extend_extend.
    repeat split; [now apply Forall_app|exact Hb].
Qed.

Lemma emits_emit (ev : Event Document) :
  P ev -> emits P (fun _ => True) (emit ev).
Proof.
  intros Hev w; exists [ev]; unfold emit; cbn [fst snd].
  repeat split; auto.
Qed.

Lemma emits_call_sync {A} (ev : Event Document) (f : History Document -> Exc A) :
  P ev -> emits P (fun _ => True) (call_sync ev f).
Proof.
  intros Hev w; exists [ev]; unfold call_sync.
  destruct (f (trace w)); cbn [fst snd]; repeat split; auto.
Qed.

Lemma emits_call_async {A} (ev : Event Document)
    (f : History Document -> Async A) :
  P ev -> emits P (fun _ => True) (call_async ev f).
Proof.
  intros Hev w; exists [ev]; unfold call_async.
  destruct (f (trace w)); cbn [fst snd]; repeat split; auto.
Qed.

Lemma emits_await {A} (p : Settled A) : emits P (fun _ => True) (await p).
Proof. destruct p; [now apply emits_ret|apply emits_throw]. Qed.

Lemma emits_error_message (error : Thrown) :
  emits P (fun _ => True) (error_message error).
Proof. destruct error; [now apply emits_ret|apply emits_throw]. Qed.

Lemma emits_array_map {A B} (R : A -> B -> Prop)
    (f : A -> M Document B) (l : list A) :
  (forall x, In x l -> emits P (R x) (f x)) ->
  emits P (fun ys => Forall2 R l ys) (array_map f l).
Proof.
  induction l as [|x l IH]; intros Hf; cbn [array_map].
  - apply emits_ret; constructor.
  - eapply emits_bind; [apply Hf; now left|]. intros y Hy.
    eapply emits_bind; [apply IH; intros x' Hx'; apply Hf; now right|].
    intros ys Hys. apply emits_ret. now constructor.
Qed.

End Emits.

Section LoopFacts.

Context {Document : Type}.
Variable env : Env Document.
Variable topicName : string.
Variable n : nat.
Variable a : ActivityId.
Variable f : History Document -> list Document -> string -> Async unit.
Implicit Types (w : World Document) (delta : list (Event Document)).

Lemma loop_body_run (doc : Document) (i : nat) w :
  loop_body env topicName (Function f) n a doc i w =
  match f (trace w) [doc] topicName with
  | SyncThrow e => (Abrupt e, extend w [HandlerCall [doc] topicName])
  | Promise (Rejected e) =>
      (Abrupt e,
       extend w [HandlerCall [doc] topicName; HandlerSettled (Rejected e)])
  | Promise (Fulfilled _) =>
      let delta := [HandlerCall [doc] topicName; HandlerSettled (Fulfilled tt);
                    LoggerProgress a (progress_msg topicName n i)] in
      match heartbeat env (trace w ++ delta) with
      | Promise (Fulfilled _) => (Normal tt, extend w (delta ++ [Heartbeat]))
      | Promise (Rejected e) => (Abrupt e, extend w (delta ++ [Heartbeat]))
      | SyncThrow e => (Abrupt e, extend w (delta ++ [Heartbeat]))
      end
  end.
Proof.
  unfold loop_body, call_consumer, await_handler, logger_progress,
    closure_topic; run_monad.
  destruct (f (trace w) [doc] topicName) as [e|[[]|e]]; world_norm;
    try reflexivity.
  destruct (heartbeat env _) as [e|[[]|e]]; world_norm; reflexivity.
Qed.

Lemma for_docs_cons (consumer : Consumer Document)
    (doc : Document) (rest : list Document) (i : nat) w :
  for_docs env topicName consumer n a (doc :: rest) i w =
  match loop_body env topicName consumer n a doc i w with
  | (Normal _, w') => for_docs env topicName consumer n a rest (S i) w'
  | (Abrupt e, w') => (Abrupt e, w')
  end.
Proof. reflexivity. Qed.

(** While handler and heartbeat resolve the loop advances, one round per
    document. *)
Lemma for_docs_resolved (pre rest : list Document) (i : nat) w :
  (forall j doc,
     nth_error pre j = Some doc ->
     round_resolves env topicName n a f
       (trace w ++ rounds topicName n a (firstn j pre) i) doc (i + j)) ->
  for_docs env topicName (Function f) n a (pre ++ rest) i w =
  for_docs env topicName (Function f) n a rest (i + List.length pre)
    (extend w (rounds topicName n a pre i)).
Proof.
  revert i w; induction pre as [|doc pre IH]; intros i w Hres.
  - cbn [app rounds List.length]. now rewrite Nat.add_0_r, extend_nil.
  - cbn [app]. rewrite for_docs_cons, loop_body_run.
    destruct (Hres 0 doc eq_refl) as [Hf Hb].
    cbn [firstn rounds] in Hf, Hb. rewrite app_nil_r in Hf, Hb.
    rewrite Nat.add_0_r in Hb.
    rewrite Hf. cbv zeta. rewrite Hb.
    rewrite IH.
    + rewrite extend_extend. cbn [rounds List.length app].
      now rewrite Nat.add_succ_r.
    + intros j doc' Hj. specialize (Hres (S j) doc' Hj).
      cbn [firstn rounds] in Hres.
      rewrite Nat.add_succ_r in Hres.
      unfold extend; cbn [trace]. now rewrite <- app_assoc.
Qed.

End LoopFacts.

Section EachBatchFacts.

Context {Document : Type}.
Variable env : Env Document.
Implicit Types (w : World Document) (delta : list (Event Document)).

(** [eachBatch], one step at a time. *)
Lemma eachBatch_run (topicName : string) (consumer : Consumer Document)
    (payload : EachBatchPayload) w :
  let ms := batch_messages (batch payload) in
  let n := List.length ms in
  let a := logger_activity env (trace w) (received_msg topicName n) in
  eachBatch env topicName consumer payload w =
  match array_map (deserialize env) ms
          (extend w [LoggerActivity (received_msg topicName n)]) with
  | (Normal docs, w') =>
      match for_docs env topicName consumer n a docs 0 w' with
      | (Normal _, w'') =>
          (Normal tt, extend w'' [LoggerSuccess a (finished_msg topicName n)])
      | (Abrupt e, w'') => caught "eachBatch: Error processing message: " e w''
      end
  | (Abrupt e, w') => caught "eachBatch: Error processing message: " e w'
  end.
Proof.
  intros ms n a.
  unfold eachBatch, logger_activity_, logger_success, logger_error,
    error_message, caught; run_monad.
  fold ms; fold n; fold a. unfold record_event.
  destruct (array_map _ _ _) as [[docs|e] w']; [|now destruct e].
  destruct (for_docs _ _ _ _ _ _ _ _) as [[[]|e] w'']; [reflexivity|].
  now destruct e.
Qed.

(** An empty batch: the two activity markers, no handler call, no heartbeat,
    whatever the handler is. *)
Lemma eachBatch_empty_batch (topicName : string)
    (consumer : Consumer Document) w :
  eachBatch env topicName consumer {| batch := {| batch_messages := [] |} |} w
  = (Normal tt,
     extend w
       [LoggerActivity (received_msg topicName 0);
        LoggerSuccess
          (logger_activity env (trace w) (received_msg topicName 0))
          (finished_msg topicName 0)]).
Proof.
  rewrite eachBatch_run.
  cbv [batch batch_messages List.length array_map for_docs ret extend trace
       consumers].
  now rewrite <- app_assoc.
Qed.

Lemma handler_calls_app delta delta' :
  handler_calls (delta ++ delta') = handler_calls delta ++ handler_calls delta'.
Proof. apply flat_map_app. Qed.

Lemma heartbeats_app delta delta' :
  heartbeats (delta ++ delta') = heartbeats delta + heartbeats delta'.
Proof. unfold heartbeats. now rewrite filter_app, length_app. Qed.

Lemma error_logs_app delta delta' :
  error_logs (delta ++ delta') = error_logs delta ++ error_logs delta'.
Proof. apply flat_map_app. Qed.

Lemma parse_events_quiet (ms : list KafkaMessage) :
  handler_calls (@parse_events Document ms) = [] /\
  heartbeats (@parse_events Document ms) = 0 /\
  error_logs (@parse_events Document ms) = [].
Proof.
  induction ms as [|m ms (IH1 & IH2 & IH3)]; [now repeat split|].
  unfold parse_events in *; cbn [flat_map].
  rewrite handler_calls_app, heartbeats_app, error_logs_app, IH1, IH2, IH3.
  now destruct (km_value m).
Qed.

Lemma rounds_counts (topicName : string) (n : nat) (a : ActivityId)
    (docs : list Document) (i : nat) :
  handler_calls (rounds topicName n a docs i)
  = map (fun doc => ([doc], topicName)) docs /\
  heartbeats (rounds topicName n a docs i) = List.length docs /\
  error_logs (rounds topicName n a docs i) = [].
Proof.
  revert i; induction docs as [|doc docs IH]; intros i; [now repeat split|].
  destruct (IH (S i)) as (IH1 & IH2 & IH3).
  cbn [rounds]. rewrite handler_calls_app, heartbeats_app, error_logs_app.
  rewrite IH1, IH2, IH3. now repeat split.
Qed.

Lemma deserialized_length (ms : list KafkaMessage) (docs : list Document) :
  deserialized env ms docs -> List.length docs = List.length ms.
Proof. intros H; symmetry; exact (Forall2_length H). Qed.

(** C1: when every payload of the batch deserialises and, in each round, the
    handler's promise and then the heartbeat resolve, [eachBatch] calls the
    handler once per message, in arrival order, each time with the single
    document and the topic; it resumes from the await of one call before it
    makes the next, and between the two it reports progress and sends one
    heartbeat.  A batch of [n] messages gives [n] calls and [n] heartbeats,
    an empty batch gives none, and no error is logged or thrown. *)
Theorem eachBatch_sequential (topicName : string)
    (f : History Document -> list Document -> string -> Async unit)
    (payload : EachBatchPayload) (docs : list Document) w :
  let ms := batch_messages (batch payload) in
  let n := List.length ms in
  let a := logger_activity env (trace w) (received_msg topicName n) in
  deserialized env ms docs ->
  (forall j doc,
     nth_error docs j = Some doc ->
     round_resolves env topicName n a f
       (trace w ++ batch_start topicName ms
        ++ rounds topicName n a (firstn j docs) 0) doc j) ->
  exists delta,
    eachBatch env topicName (Function f) payload w
    = (Normal tt, extend w delta) /\
    delta = batch_start topicName ms ++ rounds topicName n a docs 0
            ++ [LoggerSuccess a (finished_msg topicName n)] /\
    handler_calls delta = map (fun doc => ([doc], topicName)) docs /\
    List.length (handler_calls delta) = n /\
    heartbeats delta = n /\
    error_logs delta = [].
Proof.
  intros ms n a Hdocs Hres.
  eexists; split; [|split; [reflexivity|]].
  - rewrite eachBatch_run. fold ms; fold n; fold a.
    rewrite (array_map_deserialize_ok _ _ _ Hdocs).
    rewrite <- (app_nil_r docs) at 1.
    rewrite for_docs_resolved.
    + cbn [for_docs]; unfold ret. rewrite !extend_extend.
      unfold batch_start; reflexivity.
    + intros j doc Hj. specialize (Hres j doc Hj).
      unfold extend; cbn [trace]. rewrite <- !app_assoc.
      exact Hres.
  - destruct (parse_events_quiet ms) as (Hp1 & Hp2 & Hp3).
    destruct (rounds_counts topicName n a docs 0) as (Hr1 & Hr2 & Hr3).
    change (batch_start topicName ms ++ rounds topicName n a docs 0
            ++ [LoggerSuccess a (finished_msg topicName n)])
      with ([LoggerActivity (received_msg topicName n)] ++ parse_events ms
            ++ rounds topicName n a docs 0
            ++ [LoggerSuccess a (finished_msg topicName n)]).
    rewrite !handler_calls_app, !heartbeats_app, !error_logs_app.
    rewrite Hp1, Hp2, Hp3, Hr1, Hr2, Hr3.
    cbn. rewrite app_nil_r, length_map, Nat.add_0_r.
    rewrite (deserialized_length _ _ Hdocs). now repeat split.
Qed.

Lemma nth_error_cut {A} (l : list A) (i : nat) (x : A) :
  nth_error l i = Some x ->
  l = firstn i l ++ x :: skipn (S i) l /\
  firstn (S i) l = firstn i l ++ [x] /\
  List.length (firstn i l) = i.
Proof.
  revert i; induction l as [|y l IH]; intros [|i] H; try discriminate.
  - injection H as ->. now repeat split.
  - destruct (IH i H) as (H1 & H2 & H3).
    cbn [firstn skipn app List.length] in *.
    repeat split; [now rewrite <- H1|now rewrite H2|now rewrite H3].
Qed.

Lemma nth_error_firstn_inv {A} (l : list A) (i j : nat) (x : A) :
  nth_error (firstn i l) j = Some x ->
  j < i /\ nth_error l j = Some x /\ firstn j (firstn i l) = firstn j l.
Proof.
  revert i j; induction l as [|y l IH]; intros [|i] [|j] H;
    cbn [firstn nth_error] in *; try discriminate.
  - repeat split; [lia|exact H].
  - destruct (IH i j H) as (H1 & H2 & H3).
    repeat split; [lia|exact H2|now rewrite H3].
Qed.

(** The run of [eachBatch] when the payloads deserialise, the rounds before
    index [i] resolve and the handler fails with [e] on the message at index
    [i]: the loop stops there and the catch block is handed [e]. *)
Lemma eachBatch_failure_run (topicName : string)
    (f : History Document -> list Document -> string -> Async unit)
    (payload : EachBatchPayload) (docs : list Document)
    (i : nat) (doc : Document) (e : Thrown) w :
  let ms := batch_messages (batch payload) in
  let n := List.length ms in
  let a := logger_activity env (trace w) (received_msg topicName n) in
  deserialized env ms docs ->
  nth_error docs i = Some doc ->
  (forall j dj,
     j < i -> nth_error docs j = Some dj ->
     round_resolves env topicName n a f
       (trace w ++ batch_start topicName ms
        ++ rounds topicName n a (firstn j docs) 0) dj j) ->
  failed (f (trace w ++ batch_start topicName ms
             ++ rounds topicName n a (firstn i docs) 0) [doc] topicName) e ->
  exists settled,
    (settled = [] \/ settled = [HandlerSettled (Rejected e)]) /\
    eachBatch env topicName (Function f) payload w
    = caught "eachBatch: Error processing message: " e
        (extend w
           (batch_start topicName ms
            ++ rounds topicName n a (firstn i docs) 0
            ++ HandlerCall [doc] topicName :: settled)).
Proof.
  intros ms n a Hdocs Hi Hres Hfail.
  destruct (nth_error_cut _ _ _ Hi) as (Hcut & Hfirst & Hlen).
  set (pre := firstn i docs) in *.
  rewrite eachBatch_run. fold ms; fold n; fold a.
  rewrite (array_map_deserialize_ok _ _ _ Hdocs).
  replace (for_docs env topicName (Function f) n a docs)
    with (for_docs env topicName (Function f) n a
            (pre ++ doc :: skipn (S i) docs))
    by now rewrite <- Hcut.
  rewrite for_docs_resolved.
  - rewrite for_docs_cons, loop_body_run.
    set (w' := extend (extend (extend w _) _) _).
    assert (Hw' : w' = extend w (batch_start topicName ms
                                 ++ rounds topicName n a pre 0)).
    { unfold w', extend, batch_start; cbn [trace consumers].
      now rewrite <- !app_assoc. }
    rewrite Hw'. unfold extend at 1; cbn [trace].
    destruct Hfail as [Hf | Hf]; rewrite Hf.
    + exists []; split; [now left|].
      rewrite !extend_extend, <- !app_assoc. reflexivity.
    + exists [HandlerSettled (Rejected e)]; split; [now right|].
      rewrite !extend_extend, <- !app_assoc. reflexivity.
  - intros j dj Hj.
    destruct (nth_error_firstn_inv _ _ _ _ Hj) as (Hlt & Hnth & Hpre).
    unfold pre; rewrite Hpre.
    specialize (Hres j dj Hlt Hnth).
    unfold extend; cbn [trace]. rewrite <- !app_assoc. exact Hres.
Qed.

(** The calls counted in the trace of a run that stops at index [i]. *)
Lemma failure_trace_counts (topicName : string) (n : nat) (a : ActivityId)
    (ms : list KafkaMessage) (docs : list Document) (i : nat) (doc : Document)
    (e : Thrown) (settled logged : list (Event Document)) :
  nth_error docs i = Some doc ->
  settled = [] \/ settled = [HandlerSettled (Rejected e)] ->
  handler_calls logged = [] -> heartbeats logged = 0 ->
  let delta := batch_start topicName ms
               ++ rounds topicName n a (firstn i docs) 0
               ++ HandlerCall [doc] topicName :: settled ++ logged in
  handler_calls delta = map (fun d => ([d], topicName)) (firstn (S i) docs) /\
  heartbeats delta = i /\
  error_logs delta = error_logs logged.
Proof.
  intros Hi Hsettled Hl1 Hl2 delta; subst delta.
  destruct (nth_error_cut _ _ _ Hi) as (Hcut & Hfirst & Hlen).
  destruct (parse_events_quiet ms) as (Hp1 & Hp2 & Hp3).
  destruct (rounds_counts topicName n a (firstn i docs) 0) as (Hr1 & Hr2 & Hr3).
  change (batch_start topicName ms ++ ?r)
    with ([LoggerActivity (received_msg topicName (List.length ms))]
          ++ parse_events ms ++ r).
  change (HandlerCall [doc] topicName :: settled ++ logged)
    with ([HandlerCall [doc] topicName] ++ settled ++ logged).
  rewrite !handler_calls_app, !heartbeats_app, !error_logs_app.
  rewrite Hp1, Hp2, Hp3, Hr1, Hr2, Hr3, Hl1, Hl2, Hfirst, map_app, Hlen.
  destruct Hsettled as [-> | ->]; cbn; rewrite ?Nat.add_0_r; now repeat split.
Qed.

(** X19: when the handler fails on the message at index [i] with a value
    whose [message] can be read (it throws, or its promise rejects),
    [eachBatch] has called the handler for the messages [0..i] and for no
    later one, has sent [i] heartbeats, logs the error with the prefix
    [eachBatch:] and completes normally, so the runner, configured by
    [subscribeBatch] to resolve batches itself, resolves this batch: it is
    not delivered again. *)
Lemma eachBatch_handler_failure (topicName : string)
    (f : History Document -> list Document -> string -> Async unit)
    (payload : EachBatchPayload) (docs : list Document)
    (i : nat) (doc : Document) (e : JsError) w :
  let ms := batch_messages (batch payload) in
  let n := List.length ms in
  let a := logger_activity env (trace w) (received_msg topicName n) in
  deserialized env ms docs ->
  nth_error docs i = Some doc ->
  (forall j dj,
     j < i -> nth_error docs j = Some dj ->
     round_resolves env topicName n a f
       (trace w ++ batch_start topicName ms
        ++ rounds topicName n a (firstn j docs) 0) dj j) ->
  failed (f (trace w ++ batch_start topicName ms
             ++ rounds topicName n a (firstn i docs) 0) [doc] topicName) e ->
  exists delta,
    eachBatch env topicName (Function f) payload w
    = (Normal tt, extend w delta) /\
    (exists settled,
       (settled = [] \/ settled = [HandlerSettled (Rejected e)]) /\
       delta = batch_start topicName ms
               ++ rounds topicName n a (firstn i docs) 0
               ++ HandlerCall [doc] topicName :: settled
               ++ [LoggerError
                     ("eachBatch: Error processing message: " ++ message e)]) /\
    handler_calls delta
    = map (fun d => ([d], topicName)) (firstn (S i) docs) /\
    heartbeats delta = i /\
    error_logs delta
    = [("eachBatch: Error processing message: " ++ message e)%string] /\
    batch_resolved subscribeBatch_run_config
      (fst (eachBatch env topicName (Function f) payload w)) = true.
Proof.
  intros ms n a Hdocs Hi Hres Hfail.
  destruct (eachBatch_failure_run _ _ _ _ _ _ _ _ Hdocs Hi Hres Hfail)
    as (settled & Hsettled & Hrun).
  fold ms n a in Hrun. unfold caught in Hrun.
  rewrite extend_extend, <- !app_assoc in Hrun. cbn [app] in Hrun.
  eexists; split; [exact Hrun|].
  split; [exists settled; split; [exact Hsettled|reflexivity]|].
  rewrite Hrun; cbn [fst batch_resolved subscribeBatch_run_config
                       eachBatchAutoResolve].
  destruct (failure_trace_counts topicName n a ms docs i doc e settled
              [LoggerError
                 ("eachBatch: Error processing message: " ++ message e)]
              Hi Hsettled eq_refl eq_refl) as (H1 & H2 & H3).
  now repeat split.
Qed.

(** C2: a handler that fails with [null] or [undefined] gets past the catch
    block of [eachBatch].  When the payloads deserialise, the rounds before
    index [i] resolve and the handler fails with such a value on the message
    at index [i] (it throws it, or its promise rejects with it), the handler
    has been called for the messages [0..i] and for no later one, but the
    read of [error.message] throws: nothing is logged, the callback rejects
    with that [TypeError], and the runner does not resolve the batch. *)
Theorem eachBatch_rejects_on_nullish_failure (topicName : string)
    (f : History Document -> list Document -> string -> Async unit)
    (payload : EachBatchPayload) (docs : list Document)
    (i : nat) (doc : Document) (v : Nullish) w :
  let ms := batch_messages (batch payload) in
  let n := List.length ms in
  let a := logger_activity env (trace w) (received_msg topicName n) in
  deserialized env ms docs ->
  nth_error docs i = Some doc ->
  (forall j dj,
     j < i -> nth_error docs j = Some dj ->
     round_resolves env topicName n a f
       (trace w ++ batch_start topicName ms
        ++ rounds topicName n a (firstn j docs) 0) dj j) ->
  failed (f (trace w ++ batch_start topicName ms
             ++ rounds topicName n a (firstn i docs) 0) [doc] topicName)
    (NullishValue v) ->
  exists delta,
    eachBatch env topicName (Function f) payload w
    = (Abrupt (property_read_error v "message"), extend w delta) /\
    (exists settled,
       (settled = [] \/ settled = [HandlerSettled (Rejected (NullishValue v))]) /\
       delta = batch_start topicName ms
               ++ rounds topicName n a (firstn i docs) 0
               ++ HandlerCall [doc] topicName :: settled) /\
    handler_calls delta
    = map (fun d => ([d], topicName)) (firstn (S i) docs) /\
    heartbeats delta = i /\
    error_logs delta = [] /\
    batch_resolved subscribeBatch_run_config
      (fst (eachBatch env topicName (Function f) payload w)) = false.
Proof.
  intros ms n a Hdocs Hi Hres Hfail.
  destruct (eachBatch_failure_run _ _ _ _ _ _ _ _ Hdocs Hi Hres Hfail)
    as (settled & Hsettled & Hrun).
  fold ms n a in Hrun. unfold caught in Hrun.
  eexists; split; [exact Hrun|].
  split; [exists settled; split; [exact Hsettled|reflexivity]|].
  rewrite Hrun; cbn [fst batch_resolved].
  destruct (failure_trace_counts topicName n a ms docs i doc (NullishValue v)
              settled [] Hi Hsettled eq_refl eq_refl) as (H1 & H2 & H3).
  cbv zeta in H1, H2, H3. rewrite app_nil_r in H1, H2, H3.
  now repeat split.
Qed.

End EachBatchFacts.

Section CallbackFacts.

Context {Document : Type}.
Variable env : Env Document.
Implicit Types (w : World Document) (delta : list (Event Document)).

Section LoopEmits.

Variable P : Event Document -> Prop.
Variable topicName : string.
Variable consumer : Consumer Document.
Variable n : nat.
Variable a : ActivityId.

Hypothesis P_settled : forall s, P (HandlerSettled s).
Hypothesis P_progress : forall msg, P (LoggerProgress a msg).
Hypothesis P_heartbeat : P Heartbeat.

Lemma loop_body_emits (doc : Document) (i : nat) :
  P (HandlerCall [doc] topicName) ->
  emits P (fun _ => True) (loop_body env topicName consumer n a doc i).
Proof.
  intros Hcall. unfold loop_body, closure_topic.
  eapply emits_bind.
  { unfold call_consumer. destruct consumer as [t|f].
    - apply emits_throw.
    - apply emits_call_async, Hcall. }
  intros p _. eapply emits_bind.
  { unfold await_handler. eapply emits_bind; [apply emits_emit, P_settled|].
    intros _ _. apply emits_await. }
  intros _ _. eapply emits_bind; [apply emits_emit, P_progress|].
  intros _ _. eapply emits_bind; [apply emits_call_async, P_heartbeat|].
  intros p' _. apply emits_await.
Qed.

Lemma for_docs_emits (docs : list Document) (i : nat) :
  (forall doc, In doc docs -> P (HandlerCall [doc] topicName)) ->
  emits P (fun _ => True) (for_docs env topicName consumer n a docs i).
Proof.
  revert i; induction docs as [|doc docs IH]; intros i Hcalls; cbn [for_docs].
  - now apply emits_ret.
  - eapply emits_bind; [apply loop_body_emits, Hcalls; now left|].
    intros _ _. apply IH. intros doc' Hdoc'. apply Hcalls; now right.
Qed.

End LoopEmits.

Lemma deserialize_emits (P : Event Document -> Prop) (m : KafkaMessage) :
  (forall text, P (JsonParse text)) ->
  emits P (fun doc => payload_value env m = Return doc) (deserialize env m).
Proof.
  intros HP w. rewrite deserialize_run. unfold payload_value.
  destruct (km_value m) as [text|].
  - exists [JsonParse text].
    destruct (JSON_parse env text) as [doc|e]; cbn [fst snd];
      repeat split; auto; intros doc' H; [now injection H as <-|discriminate].
  - exists []; cbn [fst snd]. rewrite extend_nil.
    repeat split; [constructor|discriminate].
Qed.

Lemma Forall2_In_r {A B} (R : A -> B -> Prop) (l : list A) (l' : list B) (y : B) :
  Forall2 R l l' -> In y l' -> exists x, In x l /\ R x y.
Proof.
  induction 1 as [|x y' l l' Hxy _ IH]; intros Hy; [contradiction|].
  destruct Hy as [<-|Hy].
  - exists x; split; [now left|exact Hxy].
  - destruct (IH Hy) as (x' & Hx' & HR). exists x'; split; [now right|exact HR].
Qed.

Lemma Forall2_In_l_value (ms : list KafkaMessage) (docs : list Document)
    (m : KafkaMessage) :
  deserialized env ms docs -> In m ms ->
  exists doc, payload_value env m = Return doc.
Proof.
  induction 1 as [|m' doc ms docs Hm _ IH]; intros Hin; [contradiction|].
  destruct Hin as [<-|Hin]; eauto.
Qed.

(** C10: every call of the handler, from [eachMessage] and from [eachBatch]
    alike, passes an array of exactly one document, the deserialised payload
    of a delivered message, together with the topic: the topic of the
    payload in [eachMessage], the subscribed topic in [eachBatch]. *)
Theorem handler_receives_singleton :
  (forall (consumer : Consumer Document) (payload : EachMessagePayload) w,
     exists delta,
       snd (eachMessage env consumer payload w) = extend w delta /\
       forall docs topic,
         In (HandlerCall docs topic) delta ->
         List.length docs = 1 /\
         topic = emp_topic payload /\
         exists doc,
           docs = [doc] /\
           payload_value env (message_ payload) = Return doc) /\
  (forall (topicName : string) (consumer : Consumer Document)
          (payload : EachBatchPayload) w,
     exists delta,
       snd (eachBatch env topicName consumer payload w) = extend w delta /\
       forall docs topic,
         In (HandlerCall docs topic) delta ->
         List.length docs = 1 /\
         topic = topicName /\
         exists doc m,
           docs = [doc] /\
           In m (batch_messages (batch payload)) /\
           payload_value env m = Return doc).
Proof.
  split.
  - intros consumer payload w.
    unfold eachMessage, toString, parse, call_consumer, payload_value;
      run_monad.
    destruct (km_value (message_ payload)) as [text|].
    2: { exists []; rewrite extend_nil; split; [reflexivity|intros ? ? []]. }
    destruct (JSON_parse env text) as [doc|e].
    2: { eexists; split; [reflexivity|].
         intros ? ? [H|[]]; discriminate. }
    destruct consumer as [t|f].
    { eexists; split; [reflexivity|]. intros ? ? [H|[]]; discriminate. }
    unfold record_event; cbn [trace extend].
    destruct (f _ _ _) as [e|s]; cbn [fst snd];
      (eexists; split; [rewrite ?extend_extend; reflexivity|]);
      intros docs topic H; cbn [app In] in H;
      repeat (destruct H as [H|H]; try discriminate); try contradiction;
      injection H as <- <-; repeat split; eauto.
  - intros topicName consumer payload w.
    set (ms := batch_messages (batch payload)).
    set (P := fun ev : Event Document =>
                forall docs topic,
                  ev = HandlerCall docs topic ->
                  List.length docs = 1 /\
                  topic = topicName /\
                  exists doc m,
                    docs = [doc] /\ In m ms /\ payload_value env m = Return doc).
    assert (Hemits : emits P (fun _ => True)
                       (eachBatch env topicName consumer payload)).
    { unfold eachBatch. apply emits_try_catch.
      - eapply emits_bind.
        { unfold logger_activity_. apply emits_call_sync. intros ? ?; discriminate. }
        intros a _. eapply emits_bind.
        { apply emits_array_map with (R := fun m doc => payload_value env m = Return doc).
          intros m _. apply deserialize_emits. intros ? ? ?; discriminate. }
        intros docs Hdocs. eapply emits_bind.
        { apply for_docs_emits; try (intros; intros ? ?; discriminate).
          intros doc Hdoc docs' topic H. injection H as <- <-.
          destruct (Forall2_In_r _ _ _ _ Hdocs Hdoc) as (m & Hm & Hv).
          repeat split; eauto. }
        intros _ _. unfold logger_success. apply emits_emit. intros ? ?; discriminate.
      - intros e. eapply emits_bind; [apply emits_error_message|].
        intros msg _. unfold logger_error. apply emits_emit.
        intros ? ?; discriminate. }
    destruct (Hemits w) as (delta & Hw & HP & _).
    exists delta; split; [exact Hw|].
    intros docs topic Hin. rewrite Forall_forall in HP.
    exact (HP _ Hin docs topic eq_refl).
Qed.

Lemma not_in_parse_events (ms : list KafkaMessage)
    (docs : list Document) (topic : string) :
  ~ In (HandlerCall docs topic) (parse_events ms).
Proof.
  unfold parse_events. rewrite in_flat_map. intros (m & _ & H).
  destruct (km_value m); [destruct H as [H|[]]; discriminate|contradiction].
Qed.

(** C9: [eachBatch] deserialises the whole batch before the loop starts:
    whenever the handler has been called at all, every message had
    deserialised, and the parser calls for all of them precede everything
    else the callback did after announcing the batch.  So when some payload
    does not deserialise the handler is not called at all; the error of the
    first such payload is logged with the prefix [eachBatch:], the callback
    completes normally and the runner resolves the batch. *)
Theorem eachBatch_deserializes_first (topicName : string)
    (consumer : Consumer Document) (payload : EachBatchPayload) w :
  let ms := batch_messages (batch payload) in
  let n := List.length ms in
  exists r delta,
    eachBatch env topicName consumer payload w = (r, extend w delta) /\
    (r = Normal tt \/ exists v, r = Abrupt (property_read_error v "message")) /\
    (forall docs topic,
       In (HandlerCall docs topic) delta ->
       exists all tail,
         deserialized env ms all /\
         delta = batch_start topicName ms ++ tail /\
         forall text, ~ In (JsonParse text) tail) /\
    ((exists m e, In m ms /\ payload_value env m = Throw e) ->
     r = Normal tt /\
     handler_calls delta = [] /\
     (exists e good bad rest,
        ms = good ++ bad :: rest /\
        (exists docs, deserialized env good docs) /\
        payload_value env bad = Throw e /\
        delta = LoggerActivity (received_msg topicName n)
                :: parse_events (good ++ [bad])
                ++ [LoggerError
                      ("eachBatch: Error processing message: " ++ message e)]) /\
     batch_resolved subscribeBatch_run_config
       (fst (eachBatch env topicName consumer payload w)) = true).
Proof.
  intros ms n.
  rewrite eachBatch_run. fold ms; fold n.
  set (a := logger_activity env (trace w) (received_msg topicName n)).
  destruct (array_map_deserialize env ms
              (extend w [LoggerActivity (received_msg topicName n)]))
    as [(all & Hall & Hrun)
       |(e & good & bad & rest & Hms & Hgood & Hbad & Hrun)];
    rewrite Hrun.
  - set (P := fun ev : Event Document => forall text, ev <> JsonParse text).
    assert (Hloop : emits P (fun _ => True)
                      (for_docs env topicName consumer n a all 0))
      by (apply for_docs_emits; intros; intros ?; discriminate).
    destruct (Hloop (extend
                       (extend w [LoggerActivity (received_msg topicName n)])
                       (parse_events ms)))
      as (loop & Hw & HP & _).
    assert (Htail : forall last,
               Forall P last ->
               forall text, ~ In (JsonParse text) (loop ++ last)).
    { intros last Hlast text Hin. apply in_app_or in Hin as [Hin|Hin].
      - rewrite Forall_forall in HP. now apply (HP _ Hin text).
      - rewrite Forall_forall in Hlast. now apply (Hlast _ Hin text). }
    assert (Hdone : forall r last,
               Forall P last ->
               (r = Normal tt \/
                exists v, r = Abrupt (property_read_error v "message")) ->
               exists r' delta,
                 (r, extend (extend (extend w
                                [LoggerActivity (received_msg topicName n)])
                        (parse_events ms)) (loop ++ last))
                 = (r', extend w delta) /\
                 (r' = Normal tt \/
                  exists v, r' = Abrupt (property_read_error v "message")) /\
                 (forall docs topic,
                    In (HandlerCall docs topic) delta ->
                    exists all tail,
                      deserialized env ms all /\
                      delta = batch_start topicName ms ++ tail /\
                      forall text, ~ In (JsonParse text) tail) /\
                 ((exists m e, In m ms /\ payload_value env m = Throw e) ->
                  r' = Normal tt /\
                  handler_calls delta = [] /\
                  (exists e good bad rest,
                     ms = good ++ bad :: rest /\
                     (exists docs, deserialized env good docs) /\
                     payload_value env bad = Throw e /\
                     delta = LoggerActivity (received_msg topicName n)
                             :: parse_events (good ++ [bad])
                             ++ [LoggerError
                                   ("eachBatch: Error processing message: "
                                    ++ message e)]) /\
                  batch_resolved subscribeBatch_run_config r = true)).
    { intros r last Hlast Hr.
      eexists; eexists; split; [rewrite !extend_extend; reflexivity|].
      split; [exact Hr|]. split.
      - intros _ _ _. exists all; eexists; repeat split; [exact Hall|].
        now apply Htail.
      - intros (m & e & Hm & He). exfalso.
        destruct (Forall2_In_l_value _ _ _ Hall Hm) as (doc & Hdoc).
        rewrite He in Hdoc; discriminate. }
    destruct (for_docs _ _ _ _ _ _ _ _) as [[[]|e] w'']; cbn [snd] in Hw;
      subst w''.
    + rewrite extend_extend. cbn [fst].
      apply (Hdone (Normal tt) [LoggerSuccess a (finished_msg topicName n)]);
        [|now left].
      repeat constructor; intros ?; discriminate.
    + destruct e as [e|v]; unfold caught; cbn [fst].
      * rewrite extend_extend.
        apply (Hdone (Normal tt)
                 [LoggerError
                    ("eachBatch: Error processing message: " ++ message e)]);
          [|now left].
        repeat constructor; intros ?; discriminate.
      * rewrite <- (app_nil_r loop).
        apply (Hdone (Abrupt (property_read_error v "message")) []);
          [constructor|right; now exists v].
  - unfold caught; cbn [fst batch_resolved subscribeBatch_run_config
                          eachBatchAutoResolve].
    assert (Hquiet :
      @handler_calls Document
        ([LoggerActivity (received_msg topicName n)]
         ++ parse_events (good ++ [bad])
         ++ [LoggerError
               ("eachBatch: Error processing message: " ++ message e)]) = []).
    { destruct (@parse_events_quiet Document (good ++ [bad]))
        as (Hq & _ & _).
      now rewrite !handler_calls_app, Hq. }
    eexists; eexists; split; [rewrite !extend_extend; reflexivity|].
    split; [now left|]. split.
    + intros docs topic Hin. exfalso.
      assert (Hc : In (docs, topic)
                     (handler_calls
                        ([LoggerActivity (received_msg topicName n)]
                         ++ parse_events (good ++ [bad])
                         ++ [LoggerError
                               ("eachBatch: Error processing message: "
                                ++ message e)]))).
      { unfold handler_calls. rewrite in_flat_map.
        exists (HandlerCall docs topic); split; [exact Hin|now left]. }
      now rewrite Hquiet in Hc.
    + intros _. split; [reflexivity|]. split; [exact Hquiet|].
      split; [|reflexivity].
      exists e, good, bad, rest. repeat split; auto.
Qed.

End CallbackFacts.

(** ** Registration *)

Section SubscribeFacts.

Context {Document : Type}.
Variable env : Env Document.
Implicit Types (w : World Document) (delta : list (Event Document)).

(** The guard of [subscribe] rejects a handler that is not a function before
    anything else happens. *)
Lemma subscribe_rejects_non_function (topicName : string) (t : JsTypeTag)
    (context : ConsumerContext) w :
  subscribe env topicName (NotFunction t) context w
  = (Abrupt (mkError "Subscriber must be a function"), w).
Proof. reflexivity. Qed.

(** C3: in [subscribeBatch] the same guard sits inside the [try] block, so
    its error is caught by the function's own handler: the call completes
    normally and the caller sees a log line, not a failure.  No broker call
    is made and the registry is unchanged. *)
Theorem subscribeBatch_swallows_non_function (topicName : string)
    (t : JsTypeTag) (context : ConsumerContext) w :
  subscribeBatch env topicName (NotFunction t) context w
  = (Normal tt,
     extend w
       [LoggerError
          "subscribeBatch: Error subscribing to topic: Subscriber must be a function"]).
Proof. reflexivity. Qed.

(** C8: whatever [subscribe] and [subscribeBatch] do, a session they open
    is configured with the group of the context, and a subscription they
    issue is for the topic with [fromBeginning] off; neither argument can
    change that.  With a function as handler the session is always
    requested, and the subscription is issued once the session exists and
    the connect call has not failed the function. *)
Theorem sessions_subscribe_from_tail (topicName : string)
    (consumer : Consumer Document) (context : ConsumerContext) w :
  (exists delta,
     trace (snd (subscribe env topicName consumer context w))
     = trace w ++ delta /\
     Forall (session_scoped topicName context) delta /\
     let said := ConsoleLog ("Subscribing to topic " ++ topicName) in
     let cfg := {| cfg_groupId := groupId context; sessionTimeout := None |} in
     (is_function consumer = true -> In (KafkaClientConsumer cfg) delta) /\
     (forall c,
        is_function consumer = true ->
        kafkaClient_consumer env (trace w ++ [said]) cfg = Return c ->
        consumer_connect env (trace w ++ [said; KafkaClientConsumer cfg]) c
        = Promise (Fulfilled tt) ->
        In (ConsumerSubscribe c
              {| sub_topic := topicName; fromBeginning := false |}) delta)) /\
  (exists delta,
     trace (snd (subscribeBatch env topicName consumer context w))
     = trace w ++ delta /\
     Forall (session_scoped topicName context) delta /\
     let cfg := {| cfg_groupId := groupId context;
                   sessionTimeout := Some 60000%N |} in
     (is_function consumer = true -> In (KafkaClientConsumer cfg) delta) /\
     (forall c p,
        is_function consumer = true ->
        kafkaClient_consumer env (trace w) cfg = Return c ->
        consumer_connect env (trace w ++ [KafkaClientConsumer cfg]) c
        = Promise p ->
        In (ConsumerSubscribe c
              {| sub_topic := topicName; fromBeginning := false |}) delta)).
Proof.
  split.
  - unfold subscribe, storeConsumers, subscribe_run_config.
    destruct consumer as [t|f]; cbn [is_function negb].
    { exists []; unfold throw; cbn [snd]. rewrite app_nil_r.
      repeat split; try discriminate. constructor. }
    run_monad; world_norm.
    destruct (kafkaClient_consumer env _ _) as [c|e] eqn:Hk; world_norm;
      [|sessions_leaf].
    destruct (consumer_connect env _ _) as [e|[[]|e]] eqn:Hc; world_norm;
      [sessions_leaf| |sessions_leaf].
    destruct (consumer_subscribe env _ _ _) as [e|[[]|e]] eqn:Hs; world_norm;
      [sessions_leaf| |sessions_leaf].
    destruct (consumer_run env _ _ _) as [e|p] eqn:Hr; world_norm;
      sessions_leaf.
  - unfold subscribeBatch, storeConsumers, logger_error, error_message,
      subscribeBatch_run_config.
    destruct consumer as [t|f]; cbn [is_function negb].
    { eexists; run_monad; cbn [snd]; split; [reflexivity|].
      repeat split; try discriminate. repeat constructor. }
    run_monad; world_norm.
    destruct (kafkaClient_consumer env _ _) as [c|e] eqn:Hk; world_norm;
      [|destruct e; world_norm; sessions_leaf].
    destruct (consumer_connect env _ _) as [e|p] eqn:Hc; world_norm;
      [destruct e; world_norm; sessions_leaf|].
    destruct (consumer_subscribe env _ _ _) as [e|p'] eqn:Hs; world_norm;
      [destruct e; world_norm; sessions_leaf|].
    destruct (consumer_run env _ _ _) as [e|p''] eqn:Hr; world_norm;
      [destruct e; world_norm; sessions_leaf|sessions_leaf].
Qed.

(** C4: on neither path is a failed connect or subscribe call caught, logged
    and the registration skipped.  [subscribe] has no catch block: the
    failure rejects the promise its caller holds, nothing is logged, the
    consumer is not started and no handle is registered.  [subscribeBatch]
    has the catch block, but does not wait for the two calls: when the
    promise of either rejects, nothing reaches it; the consumer is started,
    the handle is registered, nothing is logged and the call completes
    normally. *)
Theorem connect_failure_not_handled (topicName : string)
    (f : History Document -> list Document -> string -> Async unit)
    (context : ConsumerContext) (c : KafkaConsumer) (e : Thrown) w :
  let s := {| sub_topic := topicName; fromBeginning := false |} in
  (let said := ConsoleLog ("Subscribing to topic " ++ topicName) in
   let cfg := {| cfg_groupId := groupId context; sessionTimeout := None |} in
   kafkaClient_consumer env (trace w ++ [said]) cfg = Return c ->
   failed (consumer_connect env
             (trace w ++ [said; KafkaClientConsumer cfg]) c) e
   \/ (consumer_connect env (trace w ++ [said; KafkaClientConsumer cfg]) c
       = Promise (Fulfilled tt) /\
       failed (consumer_subscribe env
                 (trace w ++ [said; KafkaClientConsumer cfg;
                              ConsumerConnect c]) c s) e) ->
   exists delta,
     subscribe env topicName (Function f) context w
     = (Abrupt e, extend w delta) /\
     error_logs delta = [] /\
     forall c' rc, ~ In (ConsumerRun c' rc) delta) /\
  (let cfg := {| cfg_groupId := groupId context;
                 sessionTimeout := Some 60000%N |} in
   let calls := [KafkaClientConsumer cfg; ConsumerConnect c;
                 ConsumerSubscribe c s;
                 ConsumerRun c subscribeBatch_run_config] in
   forall p1 p2 p3,
     kafkaClient_consumer env (trace w) cfg = Return c ->
     consumer_connect env (trace w ++ [KafkaClientConsumer cfg]) c
     = Promise p1 ->
     consumer_subscribe env
       (trace w ++ [KafkaClientConsumer cfg; ConsumerConnect c]) c s
     = Promise p2 ->
     consumer_run env
       (trace w ++ [KafkaClientConsumer cfg; ConsumerConnect c;
                    ConsumerSubscribe c s]) c subscribeBatch_run_config
     = Promise p3 ->
     p1 = Rejected e \/ p2 = Rejected e ->
     subscribeBatch env topicName (Function f) context w
     = (Normal tt,
        {| trace := trace w ++ calls ++ [Ulid];
           consumers :=
             consumers w
             ++ [ {| topicName_ := topicName;
                     consumerId :=
                       topicName ++ "-" ++ ulid env (trace w ++ calls);
                     consumer_ := c |} ] |}) /\
     error_logs (calls ++ [Ulid]) = []).
Proof.
  intros s; split.
  - intros said cfg Hk Hfail.
    unfold subscribe, storeConsumers, subscribe_run_config.
    cbn [is_function negb]. run_monad; world_norm.
    fold said; fold cfg. rewrite Hk.
    destruct Hfail as [[Hc|Hc]|(Hc & [Hs|Hs])]; world_norm; rewrite Hc;
      world_norm; fold s; rewrite ?Hs; world_norm;
      (eexists; split; [reflexivity|split; [reflexivity|]]);
      intros c' rc H; in_cases H.
  - intros cfg calls p1 p2 p3 Hk Hc Hs Hr _.
    split; [|reflexivity].
    unfold subscribeBatch, storeConsumers, subscribeBatch_run_config in *.
    cbn [is_function negb]. run_monad; world_norm.
    fold cfg. rewrite Hk; world_norm. rewrite Hc; world_norm.
    fold s. rewrite Hs; world_norm. rewrite Hr; world_norm.
    reflexivity.
Qed.

End SubscribeFacts.

(** ** Concrete runs *)

Section Witnesses.

Import Sample Runs.

(** A batch of three numerals, a handler that always resolves: three calls
    in order, three heartbeats. *)
Lemma eachBatch_sequential_witness :
  exists delta,
    eachBatch calm "docs" (Function always_resolves)
      (payload ["1"; "2"; "3"]) w0
    = (Normal tt, extend w0 delta) /\
    handler_calls delta = [([1], "docs"); ([2], "docs"); ([3], "docs")] /\
    heartbeats delta = 3 /\
    error_logs delta = [].
Proof.
  destruct (eachBatch_sequential calm "docs" always_resolves
              (payload ["1"; "2"; "3"]) [1; 2; 3] w0)
    as (delta & Hrun & _ & Hcalls & _ & Hbeats & Hlogs).
  - repeat constructor.
  - intros j doc _. split; reflexivity.
  - exists delta. repeat split; assumption.
Defined.

(** The handler rejects its second call with [undefined]: the third message
    is never handed over, nothing is logged, the batch callback rejects and
    the batch is not resolved. *)
Lemma eachBatch_rejects_on_nullish_failure_witness :
  exists delta,
    eachBatch calm "docs" (Function second_call_rejects_undefined)
      (payload ["1"; "2"; "3"]) w0
    = (Abrupt
         (mkError "Cannot read properties of undefined (reading 'message')"),
       extend w0 delta) /\
    handler_calls delta = [([1], "docs"); ([2], "docs")] /\
    error_logs delta = [] /\
    batch_resolved subscribeBatch_run_config
      (fst (eachBatch calm "docs" (Function second_call_rejects_undefined)
              (payload ["1"; "2"; "3"]) w0))
    = false.
Proof.
  destruct (eachBatch_rejects_on_nullish_failure calm "docs"
              second_call_rejects_undefined
              (payload ["1"; "2"; "3"]) [1; 2; 3] 1 2 JsUndefined w0)
    as (delta & Hrun & _ & Hcalls & _ & Hlogs & Hresolved).
  - repeat constructor.
  - reflexivity.
  - intros [|j] dj Hj _; [split; reflexivity|lia].
  - right; reflexivity.
  - exists delta. repeat split; assumption.
Defined.

(** The producer's connection is refused with [null]: [send] rejects and
    logs nothing. *)
Lemma send_rejects_on_nullish_failure_witness :
  send connect_rejects_null "docs" 5 w0
  = (Abrupt (mkError "Cannot read properties of null (reading 'message')"),
     extend w0 [ProducerConnect]) /\
  error_logs [@ProducerConnect nat] = [].
Proof.
  apply (send_rejects_on_nullish_failure connect_rejects_null "docs" 5 JsNull
           [ProducerConnect] w0).
  constructor. right; reflexivity.
Defined.

(** The handler rejects its second call: the third message is never handed
    over, one heartbeat was sent, the batch callback still completes. *)
Lemma eachBatch_handler_failure_witness :
  exists delta,
    eachBatch calm "docs" (Function second_call_rejects)
      (payload ["1"; "2"; "3"]) w0
    = (Normal tt, extend w0 delta) /\
    handler_calls delta = [([1], "docs"); ([2], "docs")] /\
    heartbeats delta = 1 /\
    error_logs delta = ["eachBatch: Error processing message: handler failed"].
Proof.
  destruct (eachBatch_handler_failure calm "docs" second_call_rejects
              (payload ["1"; "2"; "3"]) [1; 2; 3] 1 2
              (mkError "handler failed") w0)
    as (delta & Hrun & _ & Hcalls & Hbeats & Hlogs & _).
  - repeat constructor.
  - reflexivity.
  - intros [|j] dj Hj _; [split; reflexivity|lia].
  - right; reflexivity.
  - exists delta. repeat split; assumption.
Defined.

(** A broker that refuses the connection: [subscribe] rejects and logs
    nothing; [subscribeBatch] registers the handle and logs nothing. *)
Lemma connect_failure_not_handled_witness :
  (exists delta,
     subscribe (connect_answers (Promise (Rejected unreachable))) "docs"
       (Function always_resolves) g1 w0
     = (Abrupt unreachable, extend w0 delta) /\
     error_logs delta = []) /\
  subscribeBatch (connect_answers (Promise (Rejected unreachable))) "docs"
    (Function always_resolves) g1 w0
  = (Normal tt,
     {| trace :=
          [KafkaClientConsumer
             {| cfg_groupId := "g1"; sessionTimeout := Some 60000%N |};
           ConsumerConnect 7;
           ConsumerSubscribe 7
             {| sub_topic := "docs"; fromBeginning := false |};
           ConsumerRun 7 subscribeBatch_run_config;
           Ulid];
        consumers :=
          [ {| topicName_ := "docs";
               consumerId := "docs-01ARZ3NDEKTSV4RRFFQ69G5FAV";
               consumer_ := 7 |} ] |}).
Proof.
  split.
  - destruct (proj1 (connect_failure_not_handled
                       (connect_answers (Promise (Rejected unreachable)))
                       "docs" always_resolves g1 7 unreachable w0))
      as (delta & Hrun & Hlogs & _).
    + reflexivity.
    + left; right; reflexivity.
    + exists delta; split; assumption.
  - refine (proj1 (proj2 (connect_failure_not_handled
                            (connect_answers (Promise (Rejected unreachable)))
                            "docs" always_resolves g1 7 unreachable w0)
                     (Rejected unreachable) (Fulfilled tt) (Fulfilled tt)
                     _ _ _ _ _)).
    + reflexivity.
    + reflexivity.
    + reflexivity.
    + reflexivity.
    + left; reflexivity.
Defined.

(** With every call succeeding [send] connects, serialises, publishes one
    message and disconnects, and nothing else. *)
Lemma send_publishes_then_disconnects_witness :
  send calm "docs" 5 w0
  = (Normal tt,
     extend w0
       [ProducerConnect; JsonStringify 5;
        ProducerSend {| pr_topic := "docs";
                        pr_messages := [ {| value := "5" |} ] |};
        ProducerDisconnect]).
Proof.
  destruct (send_publishes_then_disconnects calm "docs" 5 "5" w0)
    as (r & tail & Hrun & Htail & Hr).
  - reflexivity.
  - reflexivity.
  - reflexivity.
  - rewrite (Htail eq_refl) in Hrun.
    destruct Hr as [-> | (n & [H|H])]; [exact Hrun|discriminate|discriminate].
Defined.

(** C6 fails as stated: when the broker rejects the record, [send] returns
    normally with the producer connected and no disconnect issued. *)
Lemma send_leaves_producer_connected :
  send rejecting_send "docs" 5 w0
  = (Normal tt,
     extend w0
       [ProducerConnect; JsonStringify 5;
        ProducerSend {| pr_topic := "docs";
                        pr_messages := [ {| value := "5" |} ] |};
        LoggerError
          "send: Error sending message to Kafka: broker rejected the record"])
  /\
  ~ In ProducerDisconnect
      (trace (snd (send rejecting_send "docs" 5 w0))).
Proof.
  split; [reflexivity|].
  intros H; in_cases H.
Qed.


(** A registration against the calm broker subscribes session 7 to the
    topic from the tail. *)
Lemma sessions_subscribe_from_tail_witness :
  exists delta,
    trace (snd (subscribe calm "docs" (Function always_resolves) g1 w0))
    = trace w0 ++ delta /\
    In (KafkaClientConsumer {| cfg_groupId := "g1"; sessionTimeout := None |})
      delta /\
    In (ConsumerSubscribe 7 {| sub_topic := "docs"; fromBeginning := false |})
      delta.
Proof.
  destruct (proj1 (sessions_subscribe_from_tail calm "docs"
                     (Function always_resolves) g1 w0))
    as (delta & Htrace & _ & Hsession & Hsub).
  exists delta. repeat split.
  - exact Htrace.
  - exact (Hsession eq_refl).
  - exact (Hsub 7 eq_refl eq_refl eq_refl).
Defined.

(** The second payload of the batch is not JSON: no handler call. *)
Lemma eachBatch_deserializes_first_witness :
  exists delta,
    eachBatch calm "docs" (Function always_resolves)
      (payload ["1"; "x"; "3"]) w0
    = (Normal tt, extend w0 delta) /\
    handler_calls delta = [].
Proof.
  destruct (eachBatch_deserializes_first calm "docs"
              (Function always_resolves) (payload ["1"; "x"; "3"]) w0)
    as (r & delta & Hrun & _ & _ & Hbad).
  destruct Hbad as (-> & Hcalls & _).
  - exists (msg "x"), (mkError "Unexpected token in JSON").
    split; [right; left; reflexivity|reflexivity].
  - exists delta. split; assumption.
Defined.

(** The call recorded for the second message of a batch carries one
    document and the subscribed topic. *)
Lemma handler_receives_singleton_witness :
  exists delta,
    snd (eachBatch calm "docs" (Function always_resolves)
           (payload ["1"; "2"]) w0)
    = extend w0 delta /\
    In (HandlerCall [2] "docs") delta /\
    List.length [2] = 1.
Proof.
  destruct (proj2 (handler_receives_singleton calm) "docs"
              (Function always_resolves) (payload ["1"; "2"]) w0)
    as (delta & Hrun & Hcalls).
  assert (Hin : In (HandlerCall [2] "docs") delta).
  { change (snd (eachBatch calm "docs" (Function always_resolves)
                   (payload ["1"; "2"]) w0))
      with (extend w0
              (batch_start "docs" (map msg ["1"; "2"])
               ++ rounds "docs" 2 0 [1; 2] 0
               ++ [@LoggerSuccess nat 0 (finished_msg "docs" 2)])) in Hrun.
    apply extend_inj in Hrun. rewrite <- Hrun.
    cbn [batch_start parse_events flat_map map km_value msg rounds app In].
    do 7 right; left; reflexivity. }
  exists delta. split; [exact Hrun|split; [exact Hin|]].
  exact (proj1 (Hcalls [2] "docs" Hin)).
Defined.

End Witnesses.

(** * Further properties *)

(** ** Producer: when the connection is given back *)

Section ProducerMore.

Context {Document : Type}.
Variable env : Env Document.
Implicit Types (w : World Document) (delta : list (Event Document)).

(** X1: [send] calls disconnect exactly when the connection, the
    serialisation and the publish have all succeeded.  In every other case
    the step that failed is the last call [send] makes to the producer, and
    the value it failed with goes to the catch block: one with a readable
    message is logged with the prefix [send:] and [send] completes normally;
    with [null] or [undefined] the catch block throws, nothing is logged and
    [send] rejects. *)
Theorem send_disconnects_iff (topicName : string) (data : Document) w :
  exists r delta,
    send env topicName data w = (r, extend w delta) /\
    (In ProducerDisconnect delta <->
     producer_connect env (trace w) = Promise (Fulfilled tt) /\
     exists v,
       JSON_stringify env data = Return v /\
       producer_send env (trace w ++ [ProducerConnect; JsonStringify data])
         (send_record topicName v) = Promise (Fulfilled tt)) /\
    (~ In ProducerDisconnect delta ->
     exists e pre,
       send_failure env w topicName data e pre /\
       match e with
       | Value e' =>
           r = Normal tt /\
           delta = pre ++ [LoggerError
                             ("send: Error sending message to Kafka: "
                              ++ message e')]
       | NullishValue n =>
           r = Abrupt (property_read_error n "message") /\ delta = pre
       end).
Proof.
  destruct (send_outcome env topicName data w)
    as [(v & Hc & Hs & Hp & Hrun)|(e & pre & Hf)].
  - eexists; eexists; split; [exact Hrun|]. split.
    + split; [intros _; eauto|intros _; cbn [In]; tauto].
    + intros H; exfalso; apply H; cbn [In]; tauto.
  - destruct (caught_run "send: Error sending message to Kafka: " e w pre)
      as (r & tail & Hcaught & Hcase).
    exists r, (pre ++ tail).
    split; [now rewrite (send_failure_run _ _ _ _ _ _ Hf)|]. split.
    + assert (Htail : ~ In ProducerDisconnect tail).
      { destruct Hcase as [(e' & _ & _ & ->)|(n & _ & _ & ->)];
          intros H; in_cases H. }
      destruct Hf as [e Hc|e Hc Hs|e v Hc Hs Hp|e v Hc Hs Hp Hd]; split.
      * intros H; apply in_app_or in H as [H|H]; [in_cases H|contradiction].
      * intros (Hc' & _). destruct Hc as [Hc|Hc]; rewrite Hc in Hc';
          discriminate.
      * intros H; apply in_app_or in H as [H|H]; [in_cases H|contradiction].
      * intros (_ & v' & Hs' & _). rewrite Hs in Hs'; discriminate.
      * intros H; apply in_app_or in H as [H|H]; [in_cases H|contradiction].
      * intros (_ & v' & Hs' & Hp'). rewrite Hs in Hs'; injection Hs' as <-.
        destruct Hp as [Hp|Hp]; rewrite Hp in Hp'; discriminate.
      * intros _; eauto.
      * intros _; apply in_or_app; left; cbn [In]; tauto.
    + intros _. exists e, pre. split; [exact Hf|].
      destruct Hcase as [(e' & -> & -> & ->)|(n & -> & -> & ->)];
        [split; reflexivity|split; [reflexivity|apply app_nil_r]].
Qed.

(** X2: whatever happens, [send] hands the producer at most one record, and
    that record carries one message, the serialised document, for the
    topic; nothing is published when the connection failed or the document
    did not serialise.  (The call completes normally, unless the catch block
    was handed [null] or [undefined].) *)
Theorem send_publishes_at_most_once (topicName : string) (data : Document) w :
  exists r delta,
    send env topicName data w = (r, extend w delta) /\
    (r = Normal tt \/ exists n, r = Abrupt (property_read_error n "message")) /\
    (forall record,
       In (ProducerSend record) delta ->
       producer_connect env (trace w) = Promise (Fulfilled tt) /\
       exists v,
         JSON_stringify env data = Return v /\
         record = {| pr_topic := topicName;
                     pr_messages := [ {| value := v |} ] |}) /\
    List.length
      (filter (fun ev => match ev with ProducerSend _ => true | _ => false end)
         delta) <= 1.
Proof.
  destruct (send_outcome env topicName data w)
    as [(v & Hc & Hs & Hp & Hrun)|(e & pre & Hf)].
  - eexists; eexists; split; [exact Hrun|]. split; [now left|].
    split; [|cbn; lia].
    intros record H; in_cases H. injection H as <-. eauto.
  - destruct (caught_run "send: Error sending message to Kafka: " e w pre)
      as (r & tail & Hcaught & Hcase).
    exists r, (pre ++ tail).
    split; [now rewrite (send_failure_run _ _ _ _ _ _ Hf)|].
    split.
    { destruct Hcase as [(e' & _ & -> & _)|(n & _ & -> & _)];
        [now left|right; now exists n]. }
    destruct Hf as [e Hc|e Hc Hs|e v Hc Hs Hp|e v Hc Hs Hp Hd];
      destruct Hcase as [(e' & _ & _ & ->)|(n & _ & _ & ->)];
      (split; [intros record H; in_cases H; injection H as <-; eauto
              |cbn; lia]).
Qed.

End ProducerMore.

Section BatchProducerMore.

Context {Document : Type}.
Variable env : Env Document.
Implicit Types (w : World Document) (delta : list (Event Document)).


Lemma not_disconnect_in_stringify_events (docs : list Document) :
  ~ In ProducerDisconnect (map (@JsonStringify Document) docs).
Proof. rewrite in_map_iff; intros (d & H & _); discriminate. Qed.


(** X4: [sendBatch] calls disconnect exactly when the connection, every
    serialisation and the batch send have succeeded.  (The call completes
    normally, unless the catch block was handed [null] or [undefined].) *)
Theorem sendBatch_disconnects_iff (topicName : string)
    (data : list Document) w :
  exists r delta,
    sendBatch env topicName data w = (r, extend w delta) /\
    (r = Normal tt \/ exists n, r = Abrupt (property_read_error n "message")) /\
    (In ProducerDisconnect delta <->
     producer_connect env (trace w) = Promise (Fulfilled tt) /\
     exists vs,
       serialized env data vs /\
       producer_sendBatch env
         (trace w ++ ProducerConnect :: map JsonStringify data)
         (batch_of topicName vs) = Promise (Fulfilled tt)).
Proof.
  unfold sendBatch, logger_error, error_message; run_monad.
  destruct (producer_connect env (trace w)) as [e|[[]|e]] eqn:Hc;
    unfold record_event.
  1, 3: destruct e as [e|n];
    (eexists; eexists; split; [rewrite ?extend_extend; reflexivity|]);
    (split; [first [now left|right; eexists; reflexivity]|]);
    (split; [intros H; in_cases H|intros [H _]; discriminate]).
  destruct (array_map_stringify env data (extend w [ProducerConnect]))
    as [(vs & Hvs & Hrun)|(e & k & Hrun)]; rewrite Hrun.
  - fold (batch_of topicName vs). rewrite extend_extend.
    unfold extend at 1; cbn [trace]. cbn [app].
    destruct (producer_sendBatch env _ _) as [e|[[]|e]] eqn:Hp.
    1, 3: destruct e as [e|n];
      (eexists; eexists; split; [list_norm; reflexivity|]);
      (split; [first [now left|right; eexists; reflexivity]|]);
      (split;
       [intros [H|H]; [discriminate|];
        apply in_app_or in H as [H|H];
        [now apply not_disconnect_in_stringify_events in H|in_cases H]
       |intros (_ & vs' & Hvs' & Hp');
        rewrite (serialized_functional _ _ _ _ Hvs' Hvs) in Hp';
        rewrite Hp in Hp'; discriminate]).
    list_norm.
    destruct (producer_disconnect env _) as [e|[[]|e]] eqn:Hd;
      try (destruct e as [e|n]);
      (eexists; eexists; split; [list_norm; reflexivity|]);
      (split; [first [now left|right; eexists; reflexivity]|]);
      (split;
       [intros _; split; [reflexivity|exists vs; split; [exact Hvs|exact Hp]]
       |intros _; right; apply in_or_app; right; cbn [In]; tauto]).
  - destruct e as [e|n];
      (eexists; eexists; split; [list_norm; reflexivity|]);
      (split; [first [now left|right; eexists; reflexivity]|]);
      (split;
       [intros [H|H]; [discriminate|];
        try (apply in_app_or in H as [H|H]; [|in_cases H]);
        try rewrite app_nil_r in H;
        now apply not_disconnect_in_stringify_events in H
       |intros (_ & vs & Hvs & _);
        rewrite (array_map_stringify_ok _ _ _ Hvs) in Hrun; discriminate]).
Qed.

End BatchProducerMore.

(** ** The single-message callback *)

Section EachMessageMore.

Context {Document : Type}.
Variable env : Env Document.
Implicit Types (w : World Document) (delta : list (Event Document)).


(** X6: a payload that does not deserialise (invalid JSON, or a null value)
    makes [eachMessage] itself fail with the parser's error: nothing catches
    it there, the handler is not called and nothing is logged. *)
Theorem eachMessage_malformed_payload_escapes
    (consumer : Consumer Document) (payload : EachMessagePayload)
    (e : JsError) w :
  payload_value env (message_ payload) = Throw e ->
  exists delta,
    eachMessage env consumer payload w = (Abrupt e, extend w delta) /\
    handler_calls delta = [] /\
    error_logs delta = [].
Proof.
  unfold payload_value. intros Hv.
  unfold eachMessage, toString, parse, call_consumer; run_monad.
  destruct (km_value (message_ payload)) as [text|].
  - rewrite Hv. eexists; split; [reflexivity|]. now split.
  - injection Hv as <-. exists []. rewrite extend_nil. now repeat split.
Qed.

(** X7: the [.catch] of [eachMessage] only sees rejections.  A handler that
    throws before it returns a promise makes the callback fail with that
    error, unlogged. *)
Theorem eachMessage_synchronous_throw_escapes
    (f : History Document -> list Document -> string -> Async unit)
    (payload : EachMessagePayload) (text : string) (doc : Document)
    (e : JsError) w :
  km_value (message_ payload) = Some text ->
  JSON_parse env text = Return doc ->
  f (trace w ++ [JsonParse text]) [doc] (emp_topic payload) = SyncThrow e ->
  eachMessage env (Function f) payload w
  = (Abrupt e,
     extend w [JsonParse text; HandlerCall [doc] (emp_topic payload)]).
Proof.
  intros Hv Hp Hf.
  unfold eachMessage, toString, parse, call_consumer; run_monad.
  rewrite Hv, Hp. world_norm. rewrite Hf. world_norm. reflexivity.
Qed.

End EachMessageMore.

(** ** The batch callback, whatever handler and broker do *)

Section EachBatchMore.

Context {Document : Type}.
Variable env : Env Document.
Implicit Types (w : World Document) (delta : list (Event Document)).

Lemma loop_body_not_function (topicName : string) (t : JsTypeTag) (n : nat)
    (a : ActivityId) (doc : Document) (i : nat) w :
  loop_body env topicName (NotFunction t) n a doc i w
  = (Abrupt (mkError "consumer is not a function"), w).
Proof. reflexivity. Qed.

(** The loop, for any handler and any broker: it stops at the first round
    that fails; up to there the handler has been given the documents one by
    one, in order, and a heartbeat has been requested after each call that
    resolved. *)
Lemma for_docs_prefix (topicName : string) (consumer : Consumer Document)
    (n : nat) (a : ActivityId) (docs : list Document) (i : nat) w :
  exists r k delta,
    for_docs env topicName consumer n a docs i w = (r, extend w delta) /\
    k <= List.length docs /\
    handler_calls delta
    = map (fun doc => ([doc], topicName)) (firstn k docs) /\
    heartbeats delta <= k /\
    k <= S (heartbeats delta) /\
    error_logs delta = [] /\
    (forall a' msg, ~ In (LoggerSuccess a' msg) delta) /\
    (forall u, r = Normal u ->
       k = List.length docs /\ heartbeats delta = List.length docs).
Proof.
  revert i w; induction docs as [|doc docs IH]; intros i w.
  - exists (Normal tt), 0, []. cbn [for_docs]; unfold ret.
    rewrite extend_nil. repeat split; auto; try (intros ? ? []).
  - rewrite for_docs_cons.
    destruct consumer as [t|f].
    { rewrite loop_body_not_function. eexists _, 0, [].
      rewrite extend_nil. repeat split; auto; try (cbn; lia);
        try discriminate; try (intros ? ? []). }
    rewrite loop_body_run.
    destruct (f (trace w) [doc] topicName) as [e|[[]|e]].
    1, 3: eexists _, 1, _; split; [reflexivity|];
      repeat split; try (cbn; lia); try reflexivity; try discriminate;
      intros ? ? H; in_cases H.
    cbv zeta.
    assert (Hround :
      forall r' k' delta',
        k' <= List.length docs ->
        handler_calls delta'
        = map (fun d => ([d], topicName)) (firstn k' docs) ->
        heartbeats delta' <= k' ->
        k' <= S (heartbeats delta') ->
        error_logs delta' = [] ->
        (forall a' msg, ~ In (LoggerSuccess a' msg) delta') ->
        (forall u : unit, r' = Normal u ->
           k' = List.length docs /\ heartbeats delta' = List.length docs) ->
        let delta :=
          [HandlerCall [doc] topicName; HandlerSettled (Fulfilled tt);
           LoggerProgress a (progress_msg topicName n i); Heartbeat]
          ++ delta' in
        S k' <= List.length (doc :: docs) /\
        handler_calls delta
        = map (fun d => ([d], topicName)) (firstn (S k') (doc :: docs)) /\
        heartbeats delta <= S k' /\
        S k' <= S (heartbeats delta) /\
        error_logs delta = [] /\
        (forall a' msg, ~ In (LoggerSuccess a' msg) delta) /\
        (forall u : unit, r' = Normal u ->
           S k' = List.length (doc :: docs) /\
           heartbeats delta = List.length (doc :: docs))).
    { intros r' k' delta' Hk Hcalls Hb1 Hb2 Hlogs Hsucc Hdone delta.
      subst delta.
      rewrite handler_calls_app, heartbeats_app, error_logs_app, Hcalls, Hlogs.
      cbn [handler_calls flat_map app heartbeats filter List.length
             error_logs firstn map].
      repeat split; try lia.
      - intros a' msg H. cbn [In] in H.
        destruct H as [H|[H|[H|[H|H]]]]; try discriminate.
        now apply (Hsucc a' msg).
      - destruct (Hdone u H); lia.
      - destruct (Hdone u H); lia. }
    destruct (heartbeat env _) as [e|[[]|e]].
    1, 3: eexists _, 1, _; split; [reflexivity|];
      specialize (Hround (Abrupt e) 0 [] (Nat.le_0_l _) eq_refl
                    (Nat.le_0_l _) (Nat.le_0_l _) eq_refl
                    (fun _ _ H => H));
      rewrite app_nil_r in Hround;
      destruct Hround as (H1 & H2 & H3 & H4 & H5 & H6 & _);
        [discriminate|];
      repeat split; auto; discriminate.
    destruct (IH (S i)
                (extend w
                   ([HandlerCall [doc] topicName;
                     HandlerSettled (Fulfilled tt);
                     LoggerProgress a (progress_msg topicName n i)]
                    ++ [Heartbeat])))
      as (r' & k' & delta' & Hrun & Hk & Hcalls & Hb1 & Hb2 & Hlogs
          & Hsucc & Hdone).
    eexists r', (S k'), _. rewrite Hrun, extend_extend.
    split; [reflexivity|].
    exact (Hround r' k' delta' Hk Hcalls Hb1 Hb2 Hlogs Hsucc Hdone).
Qed.

Lemma not_success_in_parse_events (ms : list KafkaMessage)
    (a : ActivityId) (msg : string) :
  ~ In (@LoggerSuccess Document a msg) (parse_events ms).
Proof.
  unfold parse_events. rewrite in_flat_map. intros (m & _ & H).
  destruct (km_value m); [destruct H as [H|[]]; discriminate|contradiction].
Qed.

(** X8: for any handler and any broker, when the payloads of a batch
    deserialise, the handler calls that [eachBatch] has made are an initial
    segment of the batch, in arrival order, each with its single document
    and the topic; the heartbeats requested never outnumber the calls and
    lag behind them by one at most; at most one error is logged. *)
Theorem eachBatch_calls_are_a_prefix (topicName : string)
    (consumer : Consumer Document) (payload : EachBatchPayload)
    (docs : list Document) w :
  deserialized env (batch_messages (batch payload)) docs ->
  exists delta k,
    snd (eachBatch env topicName consumer payload w) = extend w delta /\
    k <= List.length (batch_messages (batch payload)) /\
    handler_calls delta
    = map (fun doc => ([doc], topicName)) (firstn k docs) /\
    heartbeats delta <= k /\
    k <= S (heartbeats delta) /\
    List.length (error_logs delta) <= 1.
Proof.
  intros Hdocs. rewrite eachBatch_run.
  set (ms := batch_messages (batch payload)) in *.
  set (n := List.length ms).
  set (a := logger_activity env (trace w) (received_msg topicName n)).
  rewrite (array_map_deserialize_ok _ _ _ Hdocs).
  destruct (for_docs_prefix topicName consumer n a docs 0
              (extend (extend w [LoggerActivity (received_msg topicName n)])
                 (parse_events ms)))
    as (r & k & loop & Hrun & Hk & Hcalls & Hb1 & Hb2 & Hlogs & _ & _).
  rewrite Hrun.
  destruct (parse_events_quiet (Document := Document) ms)
    as (Hp1 & Hp2 & Hp3).
  rewrite (deserialized_length _ _ _ Hdocs) in Hk. fold n in Hk.
  destruct r as [[]|[e|v]]; unfold caught; cbn [snd];
    (eexists _, k; split; [rewrite !extend_extend; reflexivity|]);
    rewrite !handler_calls_app, !heartbeats_app, !error_logs_app,
      Hp1, Hp2, Hp3, Hcalls, ?Hlogs;
    cbn [handler_calls heartbeats error_logs flat_map filter app
           List.length];
    rewrite ?app_nil_r, ?Nat.add_0_r; repeat split; auto; lia.
Qed.

(** X9: what the two markers of [eachBatch] tell.  When the success marker
    has been logged, the callback completes normally, every message had
    deserialised, each document was handed to the handler in order, a
    heartbeat followed each and no error was logged.  When an error has been
    logged, it is the only one, it carries the prefix [eachBatch:], and the
    success marker has not been logged. *)
Theorem eachBatch_success_or_error (topicName : string)
    (consumer : Consumer Document) (payload : EachBatchPayload) w :
  let ms := batch_messages (batch payload) in
  let n := List.length ms in
  let a := logger_activity env (trace w) (received_msg topicName n) in
  exists delta,
    snd (eachBatch env topicName consumer payload w) = extend w delta /\
    (forall a' msg,
       In (LoggerSuccess a' msg) delta ->
       a' = a /\ msg = finished_msg topicName n /\
       fst (eachBatch env topicName consumer payload w) = Normal tt /\
       exists docs,
         deserialized env ms docs /\
         handler_calls delta = map (fun doc => ([doc], topicName)) docs /\
         heartbeats delta = n /\
         error_logs delta = []) /\
    (forall msg,
       In (LoggerError msg) delta ->
       (exists e,
          error_logs delta
          = [("eachBatch: Error processing message: " ++ message e)%string]) /\
       forall a' msg', ~ In (LoggerSuccess a' msg') delta).
Proof.
  intros ms n a. rewrite eachBatch_run. fold ms; fold n; fold a.
  assert (Hstart : forall a' msg (tail : list (Event Document)),
             In (LoggerSuccess a' msg)
               ([LoggerActivity (received_msg topicName n)] ++ tail) ->
             In (LoggerSuccess a' msg) tail).
  { intros a' msg tail [H|H]; [discriminate|exact H]. }
  assert (Hlogged : forall msg (tail : list (Event Document)),
             error_logs tail = [] -> ~ In (LoggerError msg) tail).
  { intros msg tail Hnone H.
    assert (Hin : In msg (error_logs tail)).
    { unfold error_logs. rewrite in_flat_map.
      exists (LoggerError msg); split; [exact H|now left]. }
    now rewrite Hnone in Hin. }
  destruct (array_map_deserialize env ms
              (extend w [LoggerActivity (received_msg topicName n)]))
    as [(docs & Hdocs & Hrun)
       |(e & good & bad & rest & Hms & Hgood & Hbad & Hrun)];
    rewrite Hrun.
  - destruct (for_docs_prefix topicName consumer n a docs 0
                (extend (extend w [LoggerActivity (received_msg topicName n)])
                   (parse_events ms)))
      as (r & k & loop & Hloop & Hk & Hcalls & Hb1 & Hb2 & Hlogs & Hsucc
          & Hdone).
    rewrite Hloop.
    destruct (parse_events_quiet (Document := Document) ms)
      as (Hp1 & Hp2 & Hp3).
    pose proof (deserialized_length _ _ _ Hdocs) as Hlen. fold n in Hlen.
    assert (Hloop_quiet : forall a' msg,
               ~ In (LoggerSuccess a' msg) (parse_events ms ++ loop)).
    { intros a' msg H. apply in_app_or in H as [H|H];
        [now apply not_success_in_parse_events in H|now apply (Hsucc a' msg)]. }
    destruct r as [[]|[e|v]]; unfold caught; cbn [fst snd].
    + eexists; split; [rewrite !extend_extend; reflexivity|]. split.
      * intros a' msg H. apply Hstart in H.
        rewrite app_assoc in H. apply in_app_or in H as [H|H];
          [now apply Hloop_quiet in H|].
        destruct H as [H|[]]. injection H as <- <-.
        split; [reflexivity|split; [reflexivity|split; [reflexivity|]]].
        exists docs. destruct (Hdone tt eq_refl) as (-> & Hbeats).
        rewrite !handler_calls_app, !heartbeats_app, !error_logs_app,
          Hp1, Hp2, Hp3, Hcalls, Hlogs, Hbeats, firstn_all.
        cbn [handler_calls heartbeats error_logs flat_map filter app
               List.length].
        rewrite app_nil_r, Nat.add_0_r.
        repeat split; auto.
      * intros msg H. exfalso. revert H. apply Hlogged.
        rewrite !error_logs_app, Hp3, Hlogs. reflexivity.
    + eexists; split; [rewrite !extend_extend; reflexivity|]. split.
      * intros a' msg H. apply Hstart in H.
        rewrite app_assoc in H. apply in_app_or in H as [H|H];
          [now apply Hloop_quiet in H|in_cases H].
      * intros _ _. split.
        -- exists e. rewrite !error_logs_app, Hp3, Hlogs. reflexivity.
        -- intros a' msg H. apply Hstart in H.
           rewrite app_assoc in H. apply in_app_or in H as [H|H];
             [now apply Hloop_quiet in H|in_cases H].
    + eexists; split; [rewrite !extend_extend; reflexivity|]. split.
      * intros a' msg H. apply Hstart in H. now apply Hloop_quiet in H.
      * intros msg H. exfalso. revert H. apply Hlogged.
        rewrite !error_logs_app, Hp3, Hlogs. reflexivity.
  - unfold caught; cbn [fst snd].
    eexists; split; [rewrite !extend_extend; reflexivity|]. split.
    + intros a' msg H. apply Hstart in H.
      apply in_app_or in H as [H|H];
        [now apply not_success_in_parse_events in H|in_cases H].
    + intros _ _. split.
      * exists e.
        destruct (parse_events_quiet (Document := Document) (good ++ [bad]))
          as (_ & _ & Hp3).
        rewrite !error_logs_app, Hp3. reflexivity.
      * intros a' msg H. apply Hstart in H.
        apply in_app_or in H as [H|H];
          [now apply not_success_in_parse_events in H|in_cases H].
Qed.


End EachBatchMore.

(** ** Registration, in full *)

Section RegistrationMore.

Context {Document : Type}.
Variable env : Env Document.
Implicit Types (w : World Document) (delta : list (Event Document)).

(** How a call to [subscribe] ends: with the handle registered under a fresh
    identifier, or rejected with the registry as it was. *)
Lemma subscribe_outcome (topicName : string) (consumer : Consumer Document)
    (context : ConsumerContext) w :
  (exists pre c,
     subscribe env topicName consumer context w
     = (Normal tt,
        {| trace := trace w ++ pre ++ [Ulid];
           consumers :=
             consumers w
             ++ [ {| topicName_ := topicName;
                     consumerId :=
                       topicName ++ "-" ++ ulid env (trace w ++ pre);
                     consumer_ := c |} ] |}) /\
     error_logs pre = [] /\
     In (ConsumerRun c subscribe_run_config) pre)
  \/
  (exists e delta,
     subscribe env topicName consumer context w = (Abrupt e, extend w delta) /\
     error_logs delta = []).
Proof.
  unfold subscribe, storeConsumers.
  destruct consumer as [t|f]; cbn [is_function negb].
  { right. eexists _, []. unfold throw. rewrite extend_nil. now split. }
  run_monad; world_norm.
  destruct (kafkaClient_consumer env _ _) as [c|e] eqn:Hk; world_norm.
  2: { right. eexists _, _. split; reflexivity. }
  destruct (consumer_connect env _ _) as [e|[[]|e]] eqn:Hc; world_norm.
  1, 3: right; eexists _, _; split; reflexivity.
  destruct (consumer_subscribe env _ _ _) as [e|[[]|e]] eqn:Hs; world_norm.
  1, 3: right; eexists _, _; split; reflexivity.
  destruct (consumer_run env _ _ _) as [e|p] eqn:Hr; world_norm.
  { right; eexists _, _; split; reflexivity. }
  left.
  exists [ConsoleLog ("Subscribing to topic " ++ topicName);
          KafkaClientConsumer
            {| cfg_groupId := groupId context; sessionTimeout := None |};
          ConsumerConnect c;
          ConsumerSubscribe c
            {| sub_topic := topicName; fromBeginning := false |};
          ConsumerRun c subscribe_run_config], c.
  split; [reflexivity|]. split; [reflexivity|].
  cbn [In]; tauto.
Qed.

(** How a call to [subscribeBatch] ends: with the handle registered under a
    fresh identifier, or in the catch block, the registry as it was. *)
Lemma subscribeBatch_outcome (topicName : string)
    (consumer : Consumer Document) (context : ConsumerContext) w :
  (exists pre c,
     subscribeBatch env topicName consumer context w
     = (Normal tt,
        {| trace := trace w ++ pre ++ [Ulid];
           consumers :=
             consumers w
             ++ [ {| topicName_ := topicName;
                     consumerId :=
                       topicName ++ "-" ++ ulid env (trace w ++ pre);
                     consumer_ := c |} ] |}) /\
     error_logs pre = [] /\
     In (ConsumerRun c subscribeBatch_run_config) pre)
  \/
  (exists e pre,
     subscribeBatch env topicName consumer context w
     = caught "subscribeBatch: Error subscribing to topic: " e (extend w pre) /\
     error_logs pre = []).
Proof.
  unfold subscribeBatch, storeConsumers, logger_error, error_message, caught.
  destruct consumer as [t|f]; cbn [is_function negb].
  { right. eexists (Value _), []. run_monad. rewrite extend_nil.
    split; reflexivity. }
  run_monad; world_norm.
  destruct (kafkaClient_consumer env _ _) as [c|e] eqn:Hk; world_norm.
  2: { right. exists e.
       eexists [KafkaClientConsumer _]. destruct e; split; reflexivity. }
  destruct (consumer_connect env _ _) as [e|p1] eqn:Hc; world_norm.
  { right. exists e.
    eexists [KafkaClientConsumer _; ConsumerConnect _].
    destruct e; split; reflexivity. }
  destruct (consumer_subscribe env _ _ _) as [e|p2] eqn:Hs; world_norm.
  { right. exists e.
    eexists [KafkaClientConsumer _; ConsumerConnect _; ConsumerSubscribe _ _].
    destruct e; split; reflexivity. }
  destruct (consumer_run env _ _ _) as [e|p3] eqn:Hr; world_norm.
  { right. exists e.
    eexists [KafkaClientConsumer _; ConsumerConnect _; ConsumerSubscribe _ _;
             ConsumerRun _ _].
    destruct e; split; reflexivity. }
  left.
  exists [KafkaClientConsumer
            {| cfg_groupId := groupId context;
               sessionTimeout := Some 60000%N |};
          ConsumerConnect c;
          ConsumerSubscribe c
            {| sub_topic := topicName; fromBeginning := false |};
          ConsumerRun c subscribeBatch_run_config], c.
  split; [reflexivity|]. split; [reflexivity|].
  cbn [In]; tauto.
Qed.

(** X11: when the session is created and the connect and subscribe calls
    succeed, [subscribe] starts the consumer with the per-message callback
    and appends exactly one entry to the registry: the topic, the handle of
    the session, and the identifier [topic-ulid].  It does not wait for the
    consumer to run: the outcome is the same however the promise of [run]
    settles. *)
Theorem subscribe_registers_on_success (topicName : string)
    (f : History Document -> list Document -> string -> Async unit)
    (context : ConsumerContext) (c : KafkaConsumer) (p : Settled unit) w :
  let said := ConsoleLog ("Subscribing to topic " ++ topicName) in
  let cfg := {| cfg_groupId := groupId context; sessionTimeout := None |} in
  let s := {| sub_topic := topicName; fromBeginning := false |} in
  let pre := [said; KafkaClientConsumer cfg; ConsumerConnect c;
              ConsumerSubscribe c s; ConsumerRun c subscribe_run_config] in
  kafkaClient_consumer env (trace w ++ [said]) cfg = Return c ->
  consumer_connect env (trace w ++ [said; KafkaClientConsumer cfg]) c
  = Promise (Fulfilled tt) ->
  consumer_subscribe env
    (trace w ++ [said; KafkaClientConsumer cfg; ConsumerConnect c]) c s
  = Promise (Fulfilled tt) ->
  consumer_run env
    (trace w ++ [said; KafkaClientConsumer cfg; ConsumerConnect c;
                 ConsumerSubscribe c s]) c subscribe_run_config
  = Promise p ->
  subscribe env topicName (Function f) context w
  = (Normal tt,
     {| trace := trace w ++ pre ++ [Ulid];
        consumers :=
          consumers w
          ++ [ {| topicName_ := topicName;
                  consumerId := topicName ++ "-" ++ ulid env (trace w ++ pre);
                  consumer_ := c |} ] |}).
Proof.
  intros said cfg s pre Hk Hc Hs Hr.
  unfold subscribe, storeConsumers. cbn [is_function negb].
  run_monad; world_norm. fold said; fold cfg. rewrite Hk. world_norm.
  rewrite Hc. world_norm. fold s. rewrite Hs. world_norm.
  rewrite Hr. world_norm. reflexivity.
Qed.

(** X12: [subscribeBatch] waits for nothing.  Once the session is created,
    and as long as the connect, subscribe and run calls do not throw on the
    spot, it registers the handle and returns normally, whether the promises
    of those calls fulfil or reject; no error is logged. *)
Theorem subscribeBatch_registers_without_waiting (topicName : string)
    (f : History Document -> list Document -> string -> Async unit)
    (context : ConsumerContext) (c : KafkaConsumer)
    (p1 p2 p3 : Settled unit) w :
  let cfg := {| cfg_groupId := groupId context;
                sessionTimeout := Some 60000%N |} in
  let s := {| sub_topic := topicName; fromBeginning := false |} in
  let pre := [KafkaClientConsumer cfg; ConsumerConnect c;
              ConsumerSubscribe c s;
              ConsumerRun c subscribeBatch_run_config] in
  kafkaClient_consumer env (trace w) cfg = Return c ->
  consumer_connect env (trace w ++ [KafkaClientConsumer cfg]) c
  = Promise p1 ->
  consumer_subscribe env
    (trace w ++ [KafkaClientConsumer cfg; ConsumerConnect c]) c s
  = Promise p2 ->
  consumer_run env
    (trace w ++ [KafkaClientConsumer cfg; ConsumerConnect c;
                 ConsumerSubscribe c s]) c subscribeBatch_run_config
  = Promise p3 ->
  subscribeBatch env topicName (Function f) context w
  = (Normal tt,
     {| trace := trace w ++ pre ++ [Ulid];
        consumers :=
          consumers w
          ++ [ {| topicName_ := topicName;
                  consumerId := topicName ++ "-" ++ ulid env (trace w ++ pre);
                  consumer_ := c |} ] |}).
Proof.
  intros cfg s pre Hk Hc Hs Hr.
  unfold subscribeBatch, storeConsumers.
  cbn [is_function negb].
  run_monad; world_norm. fold cfg. rewrite Hk. world_norm.
  rewrite Hc. world_norm. fold s. rewrite Hs. world_norm.
  rewrite Hr. world_norm. reflexivity.
Qed.

(** X13: [subscribe] registers exactly when it fulfils.  For every handler
    value, context and broker, it either fulfils with exactly one entry for
    the topic appended to the registry, or rejects with the registry
    untouched; the entries already there are kept in both cases, and
    [subscribe] itself never logs an error. *)
Theorem subscribe_registers_iff_fulfilled (topicName : string)
    (consumer : Consumer Document) (context : ConsumerContext) w :
  exists r delta added,
    subscribe env topicName consumer context w
    = (r, {| trace := trace w ++ delta;
             consumers := consumers w ++ added |}) /\
    error_logs delta = [] /\
    match r with
    | Normal _ =>
        exists entry, added = [entry] /\ topicName_ entry = topicName
    | Abrupt _ => added = []
    end.
Proof.
  destruct (subscribe_outcome topicName consumer context w)
    as [(pre & c & Hrun & Hlogs & _)|(e & delta & Hrun & Hlogs)].
  - eexists (Normal tt), (pre ++ [Ulid]), [_].
    split; [exact Hrun|]. split.
    + now rewrite error_logs_app, Hlogs.
    + eexists; split; reflexivity.
  - exists (Abrupt e), delta, [].
    rewrite Hrun. unfold extend. now rewrite app_nil_r.
Qed.

(** X14: the three ways a call to [subscribeBatch] ends, whatever it is
    given.  It returns normally with exactly one entry for the topic
    appended to the registry and no error logged; or it returns normally
    with the registry untouched and exactly one error logged with the prefix
    [subscribeBatch:]; or, when [null] or [undefined] was thrown inside the
    [try] block, the catch block throws: the call rejects, the registry is
    untouched and nothing is logged. *)
Theorem subscribeBatch_registers_or_logs (topicName : string)
    (consumer : Consumer Document) (context : ConsumerContext) w :
  exists r delta added,
    subscribeBatch env topicName consumer context w
    = (r, {| trace := trace w ++ delta;
             consumers := consumers w ++ added |}) /\
    ((exists entry,
        r = Normal tt /\
        added = [entry] /\ topicName_ entry = topicName /\
        error_logs delta = [])
     \/
     (exists e,
        r = Normal tt /\
        added = [] /\
        error_logs delta
        = [("subscribeBatch: Error subscribing to topic: "
            ++ message e)%string])
     \/
     (exists n,
        r = Abrupt (property_read_error n "message") /\
        added = [] /\
        error_logs delta = [])).
Proof.
  destruct (subscribeBatch_outcome topicName consumer context w)
    as [(pre & c & Hrun & Hlogs & _)|(e & pre & Hrun & Hlogs)].
  - eexists (Normal tt), (pre ++ [Ulid]), [_].
    split; [exact Hrun|]. left. eexists. repeat split.
    now rewrite error_logs_app, Hlogs.
  - destruct (caught_run "subscribeBatch: Error subscribing to topic: "
                e w pre) as (r & tail & Hcaught & Hcase).
    exists r, (pre ++ tail), [].
    split; [rewrite Hrun, Hcaught; unfold extend;
            now rewrite (app_nil_r (consumers w))|].
    right.
    destruct Hcase as [(e' & _ & -> & ->)|(n & _ & -> & ->)].
    + left. exists e'. repeat split. now rewrite error_logs_app, Hlogs.
    + right. exists n. repeat split. now rewrite error_logs_app, Hlogs.
Qed.

(** X15: the configurations are fixed by the entry point, not by the
    caller.  Whatever the context says, a session opened by [subscribeBatch]
    has a session timeout of 60000 and its consumer is started with the
    batch callback and [eachBatchAutoResolve] on; a session opened by
    [subscribe] has no session timeout and its consumer is started with the
    per-message callback. *)
Theorem registrations_use_fixed_configurations (mode : Mode)
    (topicName : string) (consumer : Consumer Document)
    (context : ConsumerContext) w :
  exists delta,
    trace (snd (register env mode topicName consumer context w))
    = trace w ++ delta /\
    Forall (configured mode) delta.
Proof.
  destruct mode; unfold register.
  - unfold subscribe, storeConsumers, subscribe_run_config.
    destruct consumer as [t|f]; cbn [is_function negb].
    { exists []; unfold throw; cbn [snd]. rewrite app_nil_r. now split. }
    run_monad; world_norm.
    destruct (kafkaClient_consumer env _ _) as [c|e]; world_norm;
      [|eexists; split; [reflexivity|repeat constructor]].
    destruct (consumer_connect env _ _) as [e|[[]|e]]; world_norm;
      try (eexists; split; [reflexivity|repeat constructor]).
    destruct (consumer_subscribe env _ _ _) as [e|[[]|e]]; world_norm;
      try (eexists; split; [reflexivity|repeat constructor]).
    destruct (consumer_run env _ _ _) as [e|p]; world_norm;
      eexists; split; try reflexivity; repeat constructor.
  - unfold subscribeBatch, storeConsumers, logger_error, error_message,
      subscribeBatch_run_config.
    destruct consumer as [t|f]; cbn [is_function negb].
    { eexists; run_monad; cbn [snd]; split; [reflexivity|].
      repeat constructor. }
    run_monad; world_norm.
    destruct (kafkaClient_consumer env _ _) as [c|e]; world_norm;
      [|destruct e; world_norm;
        (eexists; split; [reflexivity|repeat constructor])].
    destruct (consumer_connect env _ _) as [e|p1]; world_norm;
      [destruct e; world_norm;
       (eexists; split; [reflexivity|repeat constructor])|].
    destruct (consumer_subscribe env _ _ _) as [e|p2]; world_norm;
      [destruct e; world_norm;
       (eexists; split; [reflexivity|repeat constructor])|].
    destruct (consumer_run env _ _ _) as [e|p3]; world_norm;
      try (destruct e; world_norm);
      eexists; split; try reflexivity; repeat constructor.
Qed.

Lemma register_outcome (mode : Mode) (topicName : string)
    (consumer : Consumer Document) (context : ConsumerContext) w :
  (exists r pre c,
     register env mode topicName consumer context w
     = (r,
        {| trace := trace w ++ pre ++ [Ulid];
           consumers :=
             consumers w
             ++ [ {| topicName_ := topicName;
                     consumerId :=
                       topicName ++ "-" ++ ulid env (trace w ++ pre);
                     consumer_ := c |} ] |}))
  \/
  (exists r delta,
     register env mode topicName consumer context w = (r, extend w delta)).
Proof.
  destruct mode; unfold register.
  - destruct (subscribe_outcome topicName consumer context w)
      as [(pre & c & Hrun & _)|(e & delta & Hrun & _)]; eauto 6.
  - destruct (subscribeBatch_outcome topicName consumer context w)
      as [(pre & c & Hrun & _)|(e & pre & Hrun & _)]; [eauto 6|].
    destruct (caught_run "subscribeBatch: Error subscribing to topic: "
                e w pre) as (r & tail & Hcaught & _).
    right. exists r, (pre ++ tail). now rewrite Hrun.
Qed.

Lemma append_inj_l (s a b : string) : (s ++ a = s ++ b)%string -> a = b.
Proof.
  induction s as [|ch s IH]; cbn [String.append]; intros H; [exact H|].
  injection H as H. auto.
Qed.

Lemma grown_by_one {A} (l : list A) (x y : A) : l ++ [x] = l ++ [y] -> x = y.
Proof. intros H. apply app_inv_head in H. now injection H. Qed.

Lemma not_grown {A} (l : list A) (x : A) : l <> l ++ [x].
Proof.
  intros H. apply (f_equal (@List.length A)) in H.
  rewrite length_app in H. cbn in H. lia.
Qed.

(** X16: two registrations for the same topic, one after the other and
    through either entry point, that both add an entry to the registry get
    different consumer identifiers, provided the identifier generator never
    repeats itself as time goes on. *)
Theorem consecutive_registrations_distinct_ids (mode1 mode2 : Mode)
    (topicName : string) (consumer1 consumer2 : Consumer Document)
    (context1 context2 : ConsumerContext)
    (r1 r2 : Completion unit) (entry1 entry2 : ConsumerEntry)
    (w w1 w2 : World Document) :
  ulid_fresh env ->
  register env mode1 topicName consumer1 context1 w = (r1, w1) ->
  register env mode2 topicName consumer2 context2 w1 = (r2, w2) ->
  consumers w1 = consumers w ++ [entry1] ->
  consumers w2 = consumers w1 ++ [entry2] ->
  consumerId entry1 <> consumerId entry2 /\
  consumers w2 = consumers w ++ [entry1; entry2].
Proof.
  intros Hfresh Hrun1 Hrun2 Hreg1 Hreg2.
  destruct (register_outcome mode1 topicName consumer1 context1 w)
    as [(r & pre1 & c1 & H1)|(r & delta & H1)];
    rewrite H1 in Hrun1; injection Hrun1 as _ Hw1; subst w1.
  2: { now apply not_grown in Hreg1. }
  change (consumers (Build_World ?t ?c)) with c in Hreg1, Hreg2.
  apply grown_by_one in Hreg1. subst entry1.
  match type of Hrun2 with
  | register _ _ _ _ _ ?w1 = _ =>
      destruct (register_outcome mode2 topicName consumer2 context2 w1)
        as [(r' & pre2 & c2 & H2)|(r' & delta & H2)];
        rewrite H2 in Hrun2; injection Hrun2 as _ Hw2; subst w2
  end.
  2: { now apply not_grown in Hreg2. }
  change (consumers (Build_World ?t ?c)) with c in Hreg2.
  change (trace (Build_World ?t ?c)) with t in Hreg2.
  apply grown_by_one in Hreg2. subst entry2.
  change (consumers (Build_World ?t ?c)) with c.
  change (consumerId (Build_ConsumerEntry ?t ?i ?c)) with i.
  split; [|now rewrite <- app_assoc].
  intros Hid. apply append_inj_l in Hid.
  apply (append_inj_l "-") in Hid.
  revert Hid. apply Hfresh.
  rewrite !length_app. cbn [List.length]. lia.
Qed.

End RegistrationMore.

(** ** From producer to consumer *)

Section RoundTrip.

Context {Document : Type}.
Variable env : Env Document.
Implicit Types (w : World Document) (delta : list (Event Document)).

Lemma sendBatch_sends (topicName : string) (docs : list Document)
    (vs : list string) w :
  producer_connect env (trace w) = Promise (Fulfilled tt) ->
  serialized env docs vs ->
  exists r tail,
    sendBatch env topicName docs w
    = (r,
       extend w
         (ProducerConnect :: map JsonStringify docs
          ++ ProducerSendBatch (batch_of topicName vs) :: tail)) /\
    (r = Normal tt \/ exists n, r = Abrupt (property_read_error n "message")).
Proof.
  intros Hc Hvs.
  unfold sendBatch, logger_error, error_message; run_monad.
  rewrite Hc. unfold record_event.
  rewrite (array_map_stringify_ok _ _ _ Hvs).
  fold (batch_of topicName vs).
  destruct (producer_sendBatch env _ _) as [e|[[]|e]].
  1, 3: destruct e; eexists; eexists;
    (split; [list_norm; reflexivity
            |first [now left|right; eexists; reflexivity]]).
  destruct (producer_disconnect env _) as [e|[[]|e]];
    try destruct e; eexists; eexists;
    (split; [list_norm; reflexivity
            |first [now left|right; eexists; reflexivity]]).
Qed.

Lemma delivered_deserializes (topicName : string) (docs : list Document)
    (vs : list string) :
  serialized env docs vs ->
  (forall doc v,
     In doc docs -> JSON_stringify env doc = Return v ->
     JSON_parse env v = Return doc) ->
  deserialized env
    (batch_messages
       (batch (delivered
                 {| topic := topicName;
                    messages := map (fun v => {| value := v |}) vs |})))
    docs.
Proof.
  unfold delivered; cbn [batch batch_messages messages].
  induction 1 as [|doc v docs vs Hv _ IH]; intros Hcodec; cbn [map].
  - constructor.
  - constructor.
    + unfold payload_value; cbn [km_value value].
      apply Hcodec; [now left|exact Hv].
    + apply IH. intros doc' v' Hin. apply Hcodec. now right.
Qed.

(** X17: what [sendBatch] sends, [eachBatch] hands to the handler.  When
    the connection is up, every document serialises and the parser undoes
    the serialiser on these documents, [sendBatch] gives the producer one
    batch with one group for the topic; and when the broker delivers that
    group as a batch to a consumer whose handler and heartbeat resolve,
    [eachBatch] calls the handler with exactly the documents that were sent,
    one per call, in the order of the list, and logs no error. *)
Theorem sendBatch_then_eachBatch_round_trip (topicName : string)
    (f : History Document -> list Document -> string -> Async unit)
    (docs : list Document) (vs : list string) (w w' : World Document) :
  producer_connect env (trace w) = Promise (Fulfilled tt) ->
  serialized env docs vs ->
  (forall doc v,
     In doc docs -> JSON_stringify env doc = Return v ->
     JSON_parse env v = Return doc) ->
  (forall h doc, In doc docs -> f h [doc] topicName = Promise (Fulfilled tt)) ->
  (forall h, heartbeat env h = Promise (Fulfilled tt)) ->
  exists r tm tail delta,
    sendBatch env topicName docs w
    = (r,
       extend w
         (ProducerConnect :: map JsonStringify docs
          ++ ProducerSendBatch {| topicMessages := [tm] |} :: tail)) /\
    (r = Normal tt \/ exists n, r = Abrupt (property_read_error n "message")) /\
    topic tm = topicName /\
    eachBatch env topicName (Function f) (delivered tm) w'
    = (Normal tt, extend w' delta) /\
    handler_calls delta = map (fun doc => ([doc], topicName)) docs /\
    heartbeats delta = List.length docs /\
    error_logs delta = [].
Proof.
  intros Hc Hvs Hcodec Hf Hb.
  destruct (sendBatch_sends topicName docs vs w Hc Hvs)
    as (r & tail & Hsend & Hr).
  exists r.
  pose proof (delivered_deserializes topicName docs vs Hvs Hcodec) as Hdocs.
  set (tm := {| topic := topicName;
                messages := map (fun v => {| value := v |}) vs |}) in *.
  set (ms := batch_messages (batch (delivered tm))) in *.
  set (n := List.length ms).
  set (a := logger_activity env (trace w') (received_msg topicName n)).
  exists tm, tail.
  exists (batch_start topicName ms ++ rounds topicName n a docs 0
          ++ [LoggerSuccess a (finished_msg topicName n)]).
  split; [exact Hsend|]. split; [exact Hr|]. split; [reflexivity|]. split.
  - rewrite eachBatch_run. fold ms; fold n; fold a.
    rewrite (array_map_deserialize_ok _ _ _ Hdocs).
    rewrite <- (app_nil_r docs) at 1.
    rewrite for_docs_resolved.
    + cbn [for_docs]; unfold ret. rewrite !extend_extend.
      unfold batch_start; reflexivity.
    + intros j doc Hj. apply nth_error_In in Hj. split; [now apply Hf|apply Hb].
  - destruct (parse_events_quiet (Document := Document) ms)
      as (Hp1 & Hp2 & Hp3).
    destruct (rounds_counts (Document := Document) topicName n a docs 0)
      as (Hr1 & Hr2 & Hr3).
    change (batch_start topicName ms ++ ?r)
      with ([LoggerActivity (received_msg topicName n)]
            ++ parse_events ms ++ r).
    rewrite !handler_calls_app, !heartbeats_app, !error_logs_app.
    rewrite Hp1, Hp2, Hp3, Hr1, Hr2, Hr3.
    cbn [handler_calls heartbeats error_logs flat_map filter app
           List.length].
    rewrite app_nil_r, Nat.add_0_r. now repeat split.
Qed.

End RoundTrip.

(** ** Catch blocks and failure values with a message *)

Section Raises.

Context {Document : Type}.
Variable R : Thrown -> Prop.

Lemma raises_ret {A} (Q : A -> Prop) (a : A) :
  Q a -> raises (Document := Document) R Q (ret a).
Proof. intros Ha w; exact Ha. Qed.

Lemma raises_throw {A} (Q : A -> Prop) (e : Thrown) :
  R e -> raises (Document := Document) R Q (throw e).
Proof. intros He w; exact He. Qed.

Lemma raises_bind {A B} (Q : A -> Prop) (Q' : B -> Prop)
    (m : M Document A) (k : A -> M Document B) :
  raises R Q m -> (forall a, Q a -> raises R Q' (k a)) ->
  raises R Q' (bind m k).
Proof.
  intros Hm Hk w. specialize (Hm w). unfold bind.
  destruct (m w) as [[a|e] w']; cbn [fst] in *; [|exact Hm].
  exact (Hk a Hm w').
Qed.

Lemma raises_emit (ev : Event Document) :
  raises R (fun _ => True) (emit ev).
Proof. intros w; exact I. Qed.

Lemma raises_call_sync {A} (ev : Event Document)
    (f : History Document -> Exc A) :
  (forall h e, f h = Throw e -> R e) ->
  raises R (fun _ => True) (call_sync ev f).
Proof.
  intros Hf w. unfold call_sync.
  destruct (f (trace w)) as [a|e] eqn:H; cbn [fst]; [exact I|].
  exact (Hf _ _ H).
Qed.

Lemma raises_call_builtin {A} (ev : Event Document)
    (f : History Document -> Builtin A) :
  (forall e : JsError, R e) ->
  raises R (fun _ => True) (call_builtin ev f).
Proof.
  intros HR w. unfold call_builtin.
  destruct (f (trace w)) as [a|e]; cbn [fst]; [exact I|apply HR].
Qed.

Lemma raises_call_async {A} (ev : Event Document)
    (f : History Document -> Async A) :
  (forall h e, failed (f h) e -> R e) ->
  raises R (fun p => forall e, p = Rejected e -> R e) (call_async ev f).
Proof.
  intros Hf w. unfold call_async.
  destruct (f (trace w)) as [e|p] eqn:H; cbn [fst].
  - apply (Hf (trace w)). now left.
  - intros e ->. apply (Hf (trace w)). now right.
Qed.

Lemma raises_await {A} (p : Settled A) :
  (forall e, p = Rejected e -> R e) ->
  raises (Document := Document) R (fun _ => True) (await p).
Proof.
  intros Hp w. destruct p as [a|e]; unfold await, ret, throw; cbn [fst];
    [exact I|now apply Hp].
Qed.

Lemma raises_awaited_call {A} (ev : Event Document)
    (f : History Document -> Async A) :
  (forall h e, failed (f h) e -> R e) ->
  raises R (fun _ => True) (bind (call_async ev f) await).
Proof.
  intros Hf. eapply raises_bind; [now apply raises_call_async|].
  intros p Hp. now apply raises_await.
Qed.

Lemma raises_dropped_call {A} (ev : Event Document)
    (f : History Document -> Async A) :
  (forall h e, f h = SyncThrow e -> R e) ->
  raises R (fun _ => True) (call_async ev f).
Proof.
  intros Hf w. unfold call_async.
  destruct (f (trace w)) as [e|p] eqn:H; cbn [fst]; [|exact I].
  exact (Hf _ _ H).
Qed.

Lemma raises_array_map {A B} (f : A -> M Document B) (l : list A) :
  (forall x, raises R (fun _ => True) (f x)) ->
  raises R (fun _ => True) (array_map f l).
Proof.
  intros Hf. induction l as [|x l IH]; cbn [array_map].
  - now apply raises_ret.
  - eapply raises_bind; [apply Hf|]. intros y _.
    eapply raises_bind; [apply IH|]. intros ys _. now apply raises_ret.
Qed.

End Raises.

Section CatchBlocks.

Context {Document : Type}.
Variable env : Env Document.
Implicit Types (w : World Document) (delta : list (Event Document)).

(** A [try] block that throws nothing but values with a message, under a
    catch block that logs the message: the statement completes normally. *)
Lemma try_catch_swallows (body : M Document unit) (prefix : string) w :
  raises readable (fun _ => True) body ->
  fst (try_catch body
         (fun error =>
            msg <- error_message error ;; logger_error (prefix ++ msg)) w)
  = Normal tt.
Proof.
  intros Hbody. specialize (Hbody w). unfold try_catch.
  destruct (body w) as [[[]|e] w']; cbn [fst] in *; [reflexivity|].
  now destruct Hbody as (e' & ->).
Qed.

Lemma readable_value (e : JsError) : readable e.
Proof. now exists e. Qed.

Lemma raises_loop_body (topicName : string) (consumer : Consumer Document)
    (n : nat) (a : ActivityId) (doc : Document) (i : nat) :
  error_valued env -> error_valued_handler consumer ->
  raises readable (fun _ => True)
    (loop_body env topicName consumer n a doc i).
Proof.
  intros Henv Hf. unfold loop_body, await_handler, logger_progress.
  eapply raises_bind.
  { unfold call_consumer. destruct consumer as [t|f].
    - apply raises_throw, readable_value.
    - apply raises_call_async. intros h. apply Hf. }
  intros p Hp. eapply raises_bind.
  { eapply raises_bind; [apply raises_emit|]. intros _ _.
    now apply raises_await. }
  intros _ _. eapply raises_bind; [apply raises_emit|]. intros _ _.
  apply raises_awaited_call. apply (heartbeat_readable _ Henv).
Qed.

Lemma raises_for_docs (topicName : string) (consumer : Consumer Document)
    (n : nat) (a : ActivityId) (docs : list Document) (i : nat) :
  error_valued env -> error_valued_handler consumer ->
  raises readable (fun _ => True)
    (for_docs env topicName consumer n a docs i).
Proof.
  intros Henv Hf. revert i.
  induction docs as [|doc docs IH]; intros i; cbn [for_docs].
  - now apply raises_ret.
  - eapply raises_bind; [now apply raises_loop_body|]. intros _ _. apply IH.
Qed.

Lemma raises_deserialize (m : KafkaMessage) :
  raises readable (fun _ => True) (deserialize env m).
Proof.
  unfold deserialize, toString, parse.
  destruct (km_value m) as [text|].
  - eapply (raises_bind _ (fun _ => True)); [now apply raises_ret|].
    intros t _. apply raises_call_builtin, readable_value.
  - eapply (raises_bind _ (fun _ => False));
      [apply raises_throw, readable_value|].
    intros t [].
Qed.

(** X18: the catch blocks do what they are written for as long as no
    failure value is [null] or [undefined].  With a serialiser and a broker
    client that fail with values whose message can be read, [send],
    [sendBatch] and [subscribeBatch] complete normally whatever else
    happens, and so does [eachBatch] for a handler that fails with such
    values only. *)
Theorem catch_blocks_swallow_readable_failures :
  error_valued env ->
  (forall topicName data w, fst (send env topicName data w) = Normal tt) /\
  (forall topicName data w,
     fst (sendBatch env topicName data w) = Normal tt) /\
  (forall topicName consumer context w,
     fst (subscribeBatch env topicName consumer context w) = Normal tt) /\
  (forall topicName consumer payload w,
     error_valued_handler consumer ->
     fst (eachBatch env topicName consumer payload w) = Normal tt).
Proof.
  intros Henv. repeat split.
  - intros topicName data w. unfold send. apply try_catch_swallows.
    eapply raises_bind;
      [apply raises_call_async, (producer_connect_readable _ Henv)|].
    intros p Hp. eapply raises_bind; [now apply raises_await|].
    intros _ _. eapply raises_bind.
    { unfold stringify. apply raises_call_sync.
      intros _. apply (stringify_readable _ Henv). }
    intros v _. cbv zeta. eapply raises_bind.
    { apply raises_call_async. intros h.
      apply (producer_send_readable _ Henv). }
    intros p' Hp'. eapply raises_bind; [now apply raises_await|].
    intros _ _.
    apply raises_awaited_call, (producer_disconnect_readable _ Henv).
  - intros topicName data w. unfold sendBatch. apply try_catch_swallows.
    eapply raises_bind;
      [apply raises_call_async, (producer_connect_readable _ Henv)|].
    intros p Hp. eapply raises_bind; [now apply raises_await|].
    intros _ _. eapply raises_bind.
    { apply raises_array_map. intros doc. unfold message_of, stringify.
      eapply raises_bind.
      - apply raises_call_sync. intros _. apply (stringify_readable _ Henv).
      - intros v _. now apply raises_ret. }
    intros ms _. cbv zeta. eapply raises_bind.
    { apply raises_call_async. intros h.
      apply (producer_sendBatch_readable _ Henv). }
    intros p' Hp'. eapply raises_bind; [now apply raises_await|].
    intros _ _.
    apply raises_awaited_call, (producer_disconnect_readable _ Henv).
  - intros topicName consumer context w. unfold subscribeBatch.
    apply try_catch_swallows.
    eapply (raises_bind _ (fun _ => True)).
    { destruct (negb (is_function consumer));
        [apply raises_throw, readable_value|now apply raises_ret]. }
    intros _ _. cbv zeta. eapply raises_bind.
    { apply raises_call_sync. intros h.
      apply (kafkaClient_consumer_readable _ Henv). }
    intros c _. eapply raises_bind.
    { apply raises_dropped_call. intros h e H.
      eapply (consumer_connect_readable _ Henv). left; exact H. }
    intros _ _. eapply raises_bind.
    { apply raises_dropped_call. intros h e H.
      eapply (consumer_subscribe_readable _ Henv). left; exact H. }
    intros _ _. eapply raises_bind.
    { apply raises_dropped_call. intros h e H.
      eapply (consumer_run_readable _ Henv). left; exact H. }
    intros _ _. eapply raises_bind.
    { apply raises_call_sync. intros h e H; discriminate. }
    intros randId _. intros w'; exact I.
  - intros topicName consumer payload w Hf. unfold eachBatch.
    apply try_catch_swallows.
    eapply raises_bind.
    { unfold logger_activity_. apply raises_call_sync.
      intros h e H; discriminate. }
    intros a _. eapply raises_bind.
    { apply raises_array_map. intros m. apply raises_deserialize. }
    intros docs _. eapply raises_bind; [now apply raises_for_docs|].
    intros _ _. unfold logger_success. apply raises_emit.
Qed.

End CatchBlocks.

(** ** Concrete runs of the further properties *)

Section MoreWitnesses.

Import Sample Runs.



Lemma eachMessage_malformed_payload_escapes_witness :
  exists delta,
    eachMessage calm (Function always_resolves) (one_message "x") w0
    = (Abrupt (mkError "Unexpected token in JSON"), extend w0 delta) /\
    handler_calls delta = [] /\
    error_logs delta = [].
Proof.
  apply (eachMessage_malformed_payload_escapes calm
           (Function always_resolves) (one_message "x")
           (mkError "Unexpected token in JSON") w0).
  reflexivity.
Defined.

Lemma eachMessage_synchronous_throw_escapes_witness :
  eachMessage calm (Function always_throws) (one_message "5") w0
  = (Abrupt (mkError "handler threw"),
     extend w0 [JsonParse "5"; HandlerCall [5] "docs"]).
Proof.
  apply (eachMessage_synchronous_throw_escapes calm always_throws
           (one_message "5") "5" 5 (mkError "handler threw") w0);
    reflexivity.
Defined.

Lemma eachBatch_calls_are_a_prefix_witness :
  exists delta k,
    snd (eachBatch calm "docs" (Function second_call_rejects)
           (payload ["1"; "2"; "3"]) w0)
    = extend w0 delta /\
    k <= 3 /\
    handler_calls delta
    = map (fun doc => ([doc], "docs")) (firstn k [1; 2; 3]) /\
    heartbeats delta <= k /\
    k <= S (heartbeats delta) /\
    List.length (error_logs delta) <= 1.
Proof.
  apply (eachBatch_calls_are_a_prefix calm "docs"
           (Function second_call_rejects) (payload ["1"; "2"; "3"])
           [1; 2; 3] w0).
  repeat constructor.
Defined.


Lemma subscribe_registers_on_success_witness :
  consumers (snd (subscribe calm "docs" (Function always_resolves) g1 w0))
  = [ {| topicName_ := "docs";
         consumerId := "docs-01ARZ3NDEKTSV4RRFFQ69G5FAV";
         consumer_ := 7 |} ].
Proof.
  rewrite (subscribe_registers_on_success calm "docs" always_resolves g1 7
             (Fulfilled tt) w0); reflexivity.
Defined.

Lemma subscribeBatch_registers_without_waiting_witness :
  consumers
    (snd (subscribeBatch (connect_answers (Promise (Rejected unreachable)))
            "docs" (Function always_resolves) g1 w0))
  = [ {| topicName_ := "docs";
         consumerId := "docs-01ARZ3NDEKTSV4RRFFQ69G5FAV";
         consumer_ := 7 |} ].
Proof.
  rewrite (subscribeBatch_registers_without_waiting
             (connect_answers (Promise (Rejected unreachable))) "docs"
             always_resolves g1 7 (Rejected unreachable) (Fulfilled tt)
             (Fulfilled tt) w0); reflexivity.
Defined.

Lemma tally_length (n : nat) : String.length (tally n) = n.
Proof. induction n as [|n IH]; cbn [tally String.length]; congruence. Qed.

Lemma ticking_fresh : ulid_fresh ticking.
Proof.
  intros h h' Hlen Hid. apply Hlen.
  cbn [ulid ticking] in Hid.
  now rewrite <- (tally_length (List.length h)), Hid, tally_length.
Qed.

Lemma consecutive_registrations_distinct_ids_witness :
  exists entry1 entry2,
    consumerId entry1 <> consumerId entry2 /\
    consumers
      (snd (register ticking PerBatch "docs" (Function always_resolves) g1
              (snd (register ticking PerMessage "docs"
                      (Function always_resolves) g1 w0))))
    = consumers w0 ++ [entry1; entry2].
Proof.
  exists {| topicName_ := "docs"; consumerId := "docs-IIIII";
            consumer_ := 7 |},
         {| topicName_ := "docs"; consumerId := "docs-IIIIIIIIII";
            consumer_ := 7 |}.
  apply (consecutive_registrations_distinct_ids ticking PerMessage PerBatch
           "docs" (Function always_resolves) (Function always_resolves)
           g1 g1
           (fst (register ticking PerMessage "docs"
                   (Function always_resolves) g1 w0))
           (fst (register ticking PerBatch "docs" (Function always_resolves)
                   g1
                   (snd (register ticking PerMessage "docs"
                           (Function always_resolves) g1 w0))))
           _ _ w0
           (snd (register ticking PerMessage "docs"
                   (Function always_resolves) g1 w0))).
  - exact ticking_fresh.
  - apply surjective_pairing.
  - apply surjective_pairing.
  - reflexivity.
  - reflexivity.
Defined.

Lemma sendBatch_then_eachBatch_round_trip_witness :
  exists tm tail delta,
    sendBatch calm "docs" [1; 2; 3] w0
    = (Normal tt,
       extend w0
         (ProducerConnect :: map JsonStringify [1; 2; 3]
          ++ ProducerSendBatch {| topicMessages := [tm] |} :: tail)) /\
    topic tm = "docs" /\
    eachBatch calm "docs" (Function always_resolves) (delivered tm) w0
    = (Normal tt, extend w0 delta) /\
    handler_calls delta = [([1], "docs"); ([2], "docs"); ([3], "docs")] /\
    heartbeats delta = 3 /\
    error_logs delta = [].
Proof.
  destruct (sendBatch_then_eachBatch_round_trip calm "docs" always_resolves
              [1; 2; 3] ["1"; "2"; "3"] w0 w0)
    as (r & tm & tail & delta & Hsend & _ & Hrest).
  - reflexivity.
  - repeat constructor.
  - intros doc v [<-|[<-|[<-|[]]]] Hv; injection Hv as <-; reflexivity.
  - reflexivity.
  - reflexivity.
  - exists tm, tail, delta. split; [|exact Hrest].
    rewrite Hsend. f_equal.
    apply (f_equal fst) in Hsend. symmetry. exact Hsend.
Defined.

(** A broker that rejects every record with an error object, a handler that
    rejects every call with one: neither [send] nor [eachBatch] fails. *)
Lemma catch_blocks_swallow_readable_failures_witness :
  fst (send rejecting_send "docs" 5 w0) = Normal tt /\
  fst (eachBatch rejecting_send "docs" (Function always_rejects)
         (payload ["1"; "2"]) w0)
  = Normal tt.
Proof.
  assert (Henv : error_valued rejecting_send).
  { constructor; intros;
      match goal with
      | |- throws_readably _ => intros e H
      | |- fails_readably _ => intros e [H|H]
      end;
      try discriminate; injection H as <-; now eexists. }
  destruct (catch_blocks_swallow_readable_failures rejecting_send Henv)
    as (Hsend & _ & _ & Hbatch).
  split; [apply Hsend|apply Hbatch].
  intros h docs topic e [H|H]; [discriminate|].
  injection H as <-; now eexists.
Defined.

End MoreWitnesses.
